(** * Coldsweat: entry state and entry views

    A shallow embedding of the parts of [coldsweat/models.py] and
    [coldsweat/frontend.py] that keep the per-user read/saved state and build
    the entry views: the tables, the peewee queries of the frontend with the
    SQL meaning of join / where / distinct / order by / offset / limit, the
    single-entry marker [_mark_entry], the view builder
    [_make_view_variables] and the handlers [entry], [entry_post],
    [entry_list] and [entry_list_mark_post].

    Tables are lists of rows in storage order.  A handler is a computation
    over the database that either returns or raises; a write that happened
    before a raise stays (peewee runs in autocommit outside [transaction]). *)

From Stdlib Require Import ZArith Lia.
From stdpp Require Import base decidable option list sorting strings gmap.

Local Open Scope string_scope.
Local Open Scope Z_scope.
Local Open Scope list_scope.

(** ** Rows of [models.py]

    Primary keys are integers, [DateTimeField]s are instants on the integer
    time line, nullable columns are options. *)

Abbreviation datetime := Z (only parsing).

Record User := {
  User_id : Z;
  User_username : string;
  User_password : string;
  User_email : option string;
  User_api_key : string;
  User_is_enabled : bool }.

Record Icon := {
  Icon_id : Z;
  Icon_data : string }.

Record Group := {
  Group_id : Z;
  Group_title : string }.

Record Feed := {
  Feed_id : Z;
  Feed_is_enabled : bool;
  Feed_icon : Z;
  Feed_self_link : string;
  Feed_error_count : Z;
  Feed_title : option string;
  Feed_alternate_link : option string;
  Feed_etag : option string;
  Feed_last_updated_on : option datetime;
  Feed_last_checked_on : option datetime;
  Feed_last_status : option Z }.

Record Entry := {
  Entry_id : Z;
  Entry_guid : string;
  Entry_feed : Z;
  Entry_title : string;
  Entry_content_type : string;
  Entry_content : string;
  Entry_last_updated_on : datetime;
  Entry_is_local : bool;
  Entry_author : option string;
  Entry_link : option string }.

Record Saved := {
  Saved_id : Z;
  Saved_user : Z;
  Saved_entry : Z;
  Saved_saved_on : datetime }.

Record Read := {
  Read_id : Z;
  Read_user : Z;
  Read_entry : Z;
  Read_read_on : datetime }.

Record Subscription := {
  Subscription_id : Z;
  Subscription_user : Z;
  Subscription_group : Z;
  Subscription_feed : Z }.

#[global] Instance User_eq_dec : EqDecision User.
Proof. solve_decision. Defined.
#[global] Instance Icon_eq_dec : EqDecision Icon.
Proof. solve_decision. Defined.
#[global] Instance Group_eq_dec : EqDecision Group.
Proof. solve_decision. Defined.
#[global] Instance Feed_eq_dec : EqDecision Feed.
Proof. solve_decision. Defined.
#[global] Instance Entry_eq_dec : EqDecision Entry.
Proof. solve_decision. Defined.
#[global] Instance Saved_eq_dec : EqDecision Saved.
Proof. solve_decision. Defined.
#[global] Instance Read_eq_dec : EqDecision Read.
Proof. solve_decision. Defined.
#[global] Instance Subscription_eq_dec : EqDecision Subscription.
Proof. solve_decision. Defined.

(** The tables the frontend queries touch. *)
Record DB := {
  icons : list Icon;
  groups : list Group;
  feeds : list Feed;
  entries : list Entry;
  saved : list Saved;
  read : list Read;
  subscriptions : list Subscription }.

Definition set_read (rs : list Read) (db : DB) : DB :=
  {| icons := icons db; groups := groups db; feeds := feeds db;
     entries := entries db; saved := saved db; read := rs;
     subscriptions := subscriptions db |}.

Definition set_saved (ss : list Saved) (db : DB) : DB :=
  {| icons := icons db; groups := groups db; feeds := feeds db;
     entries := entries db; saved := ss; read := read db;
     subscriptions := subscriptions db |}.

(** ** Exceptions and the handler monad *)

Inductive Exn :=
  | IntegrityError
  | DoesNotExist (model : string)
  | KeyError
  | ValueError
  | OverflowError
  | HTTPNotFound
  | HTTPBadRequest
  | HTTPTemporaryRedirect.

#[global] Instance Exn_eq_dec : EqDecision Exn.
Proof. solve_decision. Defined.

Inductive result (A : Type) :=
  | Ok (a : A)
  | Raise (e : Exn).
Arguments Ok {A} a.
Arguments Raise {A} e.

Definition M (A : Type) : Type := DB → DB * result A.

Definition ret {A} (a : A) : M A := λ db, (db, Ok a).

Definition raise {A} (e : Exn) : M A := λ db, (db, Raise e).

Definition bind {A B} (m : M A) (k : A → M B) : M B :=
  λ db, match m db with
        | (db', Ok a) => k a db'
        | (db', Raise e) => (db', Raise e)
        end.

(** [try: m  except (e1, ..., en): h] *)
Definition try_except {A} (m : M A) (es : list Exn) (h : M A) : M A :=
  λ db, match m db with
        | (db', Raise e) => if decide (e ∈ es) then h db' else (db', Raise e)
        | r => r
        end.

(** [with transaction(): m]: commit when the block returns, roll back and
    re-raise when it raises. *)
Definition transaction {A} (m : M A) : M A :=
  λ db, match m db with
        | (db', Ok a) => (db', Ok a)
        | (_, Raise e) => (db, Raise e)
        end.

(** A read of the store. *)
Definition query {A} (f : DB → A) : M A := λ db, (db, Ok (f db)).

(** A Python value that is a [result] already (a dictionary lookup, a
    conversion). *)
Definition lift {A} (r : result A) : M A := λ db, (db, r).

(** stdpp's monad notation: [x ← m; k] and [m;; k]. *)
#[global] Instance M_ret : MRet M := @ret.
#[global] Instance M_bind : MBind M := λ A B k m, bind m k.

(** [for x in xs: body x] *)
Fixpoint for_each {A} (xs : list A) (body : A → M unit) : M unit :=
  match xs with
  | [] => ret ()
  | x :: xs' => body x;; for_each xs' body
  end.

(** ** Inserts and deletes on [Read] and [Saved]

    The key of a new row is one more than the largest key in the table.
    Both tables carry a unique index on [(user, entry)]: an insert that
    would break it raises [IntegrityError] and stores nothing. *)

Definition next_id (ids : list Z) : Z := 1 + foldr Z.max 0 ids.

Definition is_read (db : DB) (user entry : Z) : Prop :=
  ∃ r, r ∈ read db ∧ Read_user r = user ∧ Read_entry r = entry.

Definition is_saved (db : DB) (user entry : Z) : Prop :=
  ∃ s, s ∈ saved db ∧ Saved_user s = user ∧ Saved_entry s = entry.

Definition Read_matches (user entry : Z) (r : Read) : Prop :=
  Read_user r = user ∧ Read_entry r = entry.

Definition Saved_matches (user entry : Z) (s : Saved) : Prop :=
  Saved_user s = user ∧ Saved_entry s = entry.

#[global] Instance Read_matches_dec u e r : Decision (Read_matches u e r).
Proof. unfold Read_matches. apply _. Defined.
#[global] Instance Saved_matches_dec u e s : Decision (Saved_matches u e s).
Proof. unfold Saved_matches. apply _. Defined.

(** The row [Read.create(user=user, entry=entry)] stores; [read_on]
    defaults to the clock. *)
Definition new_Read (now : datetime) (user : User) (entry : Entry) (db : DB) : Read :=
  {| Read_id := next_id (Read_id <$> read db);
     Read_user := User_id user;
     Read_entry := Entry_id entry;
     Read_read_on := now |}.

Definition new_Saved (now : datetime) (user : User) (entry : Entry) (db : DB) : Saved :=
  {| Saved_id := next_id (Saved_id <$> saved db);
     Saved_user := User_id user;
     Saved_entry := Entry_id entry;
     Saved_saved_on := now |}.

(** [Read.create(user=user, entry=entry)] *)
Definition Read_create (now : datetime) (user : User) (entry : Entry) : M Read :=
  λ db,
    match filter (Read_matches (User_id user) (Entry_id entry)) (read db) with
    | _ :: _ => (db, Raise IntegrityError)
    | [] => (set_read (read db ++ [new_Read now user entry db]) db,
             Ok (new_Read now user entry db))
    end.

(** [Saved.create(user=user, entry=entry)] *)
Definition Saved_create (now : datetime) (user : User) (entry : Entry) : M Saved :=
  λ db,
    match filter (Saved_matches (User_id user) (Entry_id entry)) (saved db) with
    | _ :: _ => (db, Raise IntegrityError)
    | [] => (set_saved (saved db ++ [new_Saved now user entry db]) db,
             Ok (new_Saved now user entry db))
    end.

(** [Read.delete().where((Read.user==user) & (Read.entry==entry)).execute()]:
    the number of rows deleted. *)
Definition Read_delete (user : User) (entry : Entry) : M nat :=
  λ db,
    let hit := Read_matches (User_id user) (Entry_id entry) in
    (set_read (filter (λ r, ¬ hit r) (read db)) db,
     Ok (length (filter hit (read db)))).

(** [Saved.delete().where((Saved.user==user) & (Saved.entry==entry)).execute()] *)
Definition Saved_delete (user : User) (entry : Entry) : M nat :=
  λ db,
    let hit := Saved_matches (User_id user) (Entry_id entry) in
    (set_saved (filter (λ s, ¬ hit s) (saved db)) db,
     Ok (length (filter hit (saved db)))).

(** [log.debug] and [log.warn] write to the log only. *)
Definition log : M unit := ret ().

(** ** [FrontendApp._mark_entry]

    The four branches of the [if]/[elif] chain; any other status falls
    through to the final [log.debug].  The early [return]s after an absorbed
    [IntegrityError] or a zero-row delete only skip that last log line. *)
Definition _mark_entry (now : datetime) (user : User) (entry : Entry)
    (status : string) : M unit :=
  if decide (status = "read") then
    try_except (Read_create now user entry;; log) [IntegrityError] log
  else if decide (status = "unread") then
    count ← Read_delete user entry;
    if decide (count = 0%nat) then log else log
  else if decide (status = "saved") then
    try_except (Saved_create now user entry;; log) [IntegrityError] log
  else if decide (status = "unsaved") then
    count ← Saved_delete user entry;
    if decide (count = 0%nat) then log else log
  else log.

(** ** Entry queries

    [_q] is the join [Entry ⋈ Feed ⋈ Icon] and, from [Feed] again
    ([switch(Feed)]), [⋈ Subscription]; all are inner joins on the foreign
    key.  A peewee query is built lazily: [where], [distinct], [order_by],
    [offset] and [limit] return an extended query, and nothing is read until
    the query is counted or iterated. *)

Record JoinRow := {
  j_entry : Entry;
  j_feed : Feed;
  j_icon : Icon;
  j_subscription : Subscription }.

(** [*select]: empty (then [Entry, Feed, Icon]) or [Entry.id]. *)
Inductive Select :=
  | Select_default
  | Select_Entry_id.

Inductive Row :=
  | Row_Entry_Feed_Icon (e : Entry) (f : Feed) (i : Icon)
  | Row_Entry_id (id : Z).

#[global] Instance Row_eq_dec : EqDecision Row.
Proof. solve_decision. Defined.

(** The only ordering the entry views use: [Entry.last_updated_on.desc()]. *)
Inductive Order :=
  | Entry_last_updated_on_desc.

Record Query := {
  q_select : Select;
  q_where : DB → JoinRow → bool;
  q_distinct : bool;
  q_order_by : option Order;
  q_offset : option Z;
  q_limit : option nat }.

Definition joined (db : DB) : list JoinRow :=
  e ← entries db;
  f ← filter (λ f, Feed_id f = Entry_feed e) (feeds db);
  i ← filter (λ i, Icon_id i = Feed_icon f) (icons db);
  s ← filter (λ s, Subscription_feed s = Feed_id f) (subscriptions db);
  [ {| j_entry := e; j_feed := f; j_icon := i; j_subscription := s |} ].

Definition project (sel : Select) (j : JoinRow) : Row :=
  match sel with
  | Select_default => Row_Entry_Feed_Icon (j_entry j) (j_feed j) (j_icon j)
  | Select_Entry_id => Row_Entry_id (Entry_id (j_entry j))
  end.

Definition Row_entry_id (r : Row) : Z :=
  match r with
  | Row_Entry_Feed_Icon e _ _ => Entry_id e
  | Row_Entry_id id => id
  end.

Definition order_rel (o : Order) : relation JoinRow :=
  match o with
  | Entry_last_updated_on_desc =>
      λ j1 j2, Entry_last_updated_on (j_entry j2) ≤ Entry_last_updated_on (j_entry j1)
  end.

#[global] Instance order_rel_dec o : RelDecision (order_rel o).
Proof. destruct o; intros j1 j2; simpl; apply _. Defined.

(** The rows of a query before [OFFSET] and [LIMIT] cut them: join, filter,
    sort, project, then drop repeated rows.  Rows of equal sort key come in
    an order SQL leaves to the engine; here the sort is a fixed function of
    the tables. *)
Definition unpaged_rows (db : DB) (q : Query) : list Row :=
  let js := filter (λ j, q_where q db j) (joined db) in
  let js := match q_order_by q with
            | Some o => merge_sort (order_rel o) js
            | None => js
            end in
  let rs := project (q_select q) <$> js in
  if q_distinct q then remove_dups rs else rs.

(** The rows a query yields when it is iterated.  A negative [OFFSET]
    counts as zero. *)
Definition rows (db : DB) (q : Query) : list Row :=
  let rs := match q_offset q with
            | Some n => drop (Z.to_nat n) (unpaged_rows db q)
            | None => unpaged_rows db q
            end in
  match q_limit q with
  | Some n => take n rs
  | None => rs
  end.

(** [q.count()]: the number of rows of the query (counted over the wrapped
    query when it is distinct). *)
Definition Query_count (db : DB) (q : Query) : nat := length (rows db q).

Definition _q (sel : Select) : Query :=
  {| q_select := sel; q_where := λ _ _, true; q_distinct := false;
     q_order_by := None; q_offset := None; q_limit := None |}.

Definition Query_where (c : DB → JoinRow → bool) (q : Query) : Query :=
  {| q_select := q_select q; q_where := λ db j, q_where q db j && c db j;
     q_distinct := q_distinct q; q_order_by := q_order_by q;
     q_offset := q_offset q; q_limit := q_limit q |}.

Definition Query_distinct (q : Query) : Query :=
  {| q_select := q_select q; q_where := q_where q; q_distinct := true;
     q_order_by := q_order_by q; q_offset := q_offset q; q_limit := q_limit q |}.

Definition Query_order_by (o : Order) (q : Query) : Query :=
  {| q_select := q_select q; q_where := q_where q; q_distinct := q_distinct q;
     q_order_by := Some o; q_offset := q_offset q; q_limit := q_limit q |}.

Definition Query_offset (n : Z) (q : Query) : Query :=
  {| q_select := q_select q; q_where := q_where q; q_distinct := q_distinct q;
     q_order_by := q_order_by q; q_offset := Some n; q_limit := q_limit q |}.

Definition Query_limit (n : nat) (q : Query) : Query :=
  {| q_select := q_select q; q_where := q_where q; q_distinct := q_distinct q;
     q_order_by := q_order_by q; q_offset := q_offset q; q_limit := Some n |}.

(** [Read.select(Read.entry).where(Read.user == user)] *)
Definition Read_entries (user : User) (db : DB) : list Z :=
  Read_entry <$> filter (λ r, Read_user r = User_id user) (read db).

(** [Saved.select(Saved.entry).where(Saved.user == user)] *)
Definition Saved_entries (user : User) (db : DB) : list Z :=
  Saved_entry <$> filter (λ s, Saved_user s = User_id user) (saved db).

Definition Subscription_user_is (user : User) : DB → JoinRow → bool :=
  λ _ j, bool_decide (Subscription_user (j_subscription j) = User_id user).

Definition get_unread_entries (user : User) (sel : Select) : Query :=
  Query_distinct
    (Query_where
       (λ db j, Subscription_user_is user db j
                && negb (bool_decide (Entry_id (j_entry j) ∈ Read_entries user db)))
       (_q sel)).

Definition get_saved_entries (user : User) (sel : Select) : Query :=
  Query_distinct
    (Query_where
       (λ db j, Subscription_user_is user db j
                && bool_decide (Entry_id (j_entry j) ∈ Saved_entries user db))
       (_q sel)).

Definition get_all_entries (user : User) (sel : Select) : Query :=
  Query_distinct (Query_where (Subscription_user_is user) (_q sel)).

Definition get_group_entries (user : User) (group : Group) (sel : Select) : Query :=
  Query_where
    (λ db j, Subscription_user_is user db j
             && bool_decide (Subscription_group (j_subscription j) = Group_id group))
    (_q sel).

Definition get_feed_entries (user : User) (feed : Feed) (sel : Select) : Query :=
  Query_distinct
    (Query_where
       (λ db j, Subscription_user_is user db j
                && bool_decide (Subscription_feed (j_subscription j) = Feed_id feed))
       (_q sel)).

(** The engine keeps keys as signed 64-bit integers. *)
Definition fits_int64 (n : Z) : Prop := - 2 ^ 63 ≤ n < 2 ^ 63.

#[global] Instance fits_int64_dec n : Decision (fits_int64 n).
Proof. unfold fits_int64. apply _. Defined.

(** What [Model.get] raises when no row has the key: [Model.DoesNotExist]
    for a key the engine can take, and for an integer beyond 64 bits the
    [OverflowError] with which the sqlite binding refuses to bind it. *)
Definition no_row (model : string) (id : Z) : Exn :=
  if bool_decide (fits_int64 id) then DoesNotExist model else OverflowError.

(** [Model.get(Model.id == id)]: the first row with that key.  Stored keys
    fit 64 bits, so a key beyond them has no row. *)
Definition Entry_get (id : Z) : M Entry :=
  λ db, match filter (λ e, Entry_id e = id) (entries db) with
        | e :: _ => (db, Ok e)
        | [] => (db, Raise (no_row "Entry" id))
        end.

Definition Group_get (id : Z) : M Group :=
  λ db, match filter (λ g, Group_id g = id) (groups db) with
        | g :: _ => (db, Ok g)
        | [] => (db, Raise (no_row "Group" id))
        end.

Definition Feed_get (id : Z) : M Feed :=
  λ db, match filter (λ f, Feed_id f = id) (feeds db) with
        | f :: _ => (db, Ok f)
        | [] => (db, Raise (no_row "Feed" id))
        end.

(** ** Requests, conversions and responses

    The interpreter's [int] on request text is taken as given, [None]
    standing for its [ValueError].  So is [datetime.utcfromtimestamp], with
    what it raises when it does not convert: [ValueError] for a timestamp
    out of range, [OverflowError] for an integer too large for it. *)

Class Builtins := {
  py_int : string → option Z;
  utcfromtimestamp : Z → result datetime }.

Record Request := {
  GET : gmap string string;
  POST : gmap string string }.

(** [d[key]] *)
Definition getitem (d : gmap string string) (key : string) : result string :=
  match d !! key with
  | Some v => Ok v
  | None => Raise KeyError
  end.

(** [int(s)] *)
Definition int_ `{Builtins} (s : string) : result Z :=
  match py_int s with
  | Some n => Ok n
  | None => Raise ValueError
  end.

Definition ENTRIES_PER_PAGE : nat := 30.

(** [int(request.GET.get('offset', 0))] *)
Definition request_offset `{Builtins} (request : Request) : result Z :=
  match GET request !! "offset" with
  | Some s => int_ s
  | None => Ok 0
  end.

(** The template variables the views compute.  The titles and the filter
    name, which are markup and text for the page only, are left out. *)
Record ViewVariables := {
  ns_count : nat;
  ns_group_id : Z;
  ns_feed_id : Z;
  ns_filter_class : string;
  ns_read_ids : gset Z;
  ns_saved_ids : gset Z }.

Inductive Response :=
  | entries_html (ns : ViewVariables) (entries : list Row) (offset : Z)
      (prev_date : option string)
  | entry_html (ns : ViewVariables) (entry : Entry) (next_entries : list Row)
  | modal_alert_html (params : list (string * string)).

(** [login_required]: without a session user the wrapper raises the
    redirect to the login page. *)
Definition login_required {A} (self_user : option User) (handler : User → M A) : M A :=
  match self_user with
  | Some user => handler user
  | None => raise HTTPTemporaryRedirect
  end.

(** [r = Entry.select(Entry.id).join(Read).where(Read.user == user)] as the
    keys of [read_ids], and the same over [Saved]. *)
Definition read_ids_of (user : User) (db : DB) : gset Z :=
  list_to_set
    (e ← entries db;
     r ← filter (λ r, Read_entry r = Entry_id e ∧ Read_user r = User_id user) (read db);
     [Entry_id e]).

Definition saved_ids_of (user : User) (db : DB) : gset Z :=
  list_to_set
    (e ← entries db;
     s ← filter (λ s, Saved_entry s = Entry_id e ∧ Saved_user s = User_id user) (saved db);
     [Entry_id e]).

(** ** [FrontendApp._make_view_variables]

    The filter is chosen by the first of the keys [saved], [group], [feed],
    [all] present in the query string, and is [unread] otherwise.  The
    lookups [Group.get] and [Feed.get] are not guarded. *)
Definition _make_view_variables `{Builtins} (user : User) (request : Request)
    : M (Query * ViewVariables) :=
  read_ids ← query (read_ids_of user);
  saved_ids ← query (saved_ids_of user);
  let namespace count group_id feed_id filter_class :=
    {| ns_count := count; ns_group_id := group_id; ns_feed_id := feed_id;
       ns_filter_class := filter_class;
       ns_read_ids := read_ids; ns_saved_ids := saved_ids |} in
  match GET request !! "saved", GET request !! "group",
        GET request !! "feed", GET request !! "all" with
  | Some _, _, _, _ =>
      count ← query (λ db, Query_count db (get_saved_entries user Select_Entry_id));
      mret (get_saved_entries user Select_default, namespace count 0 0 "saved")
  | None, Some g, _, _ =>
      group_id ← lift (int_ g);
      group ← Group_get group_id;
      count ← query (λ db, Query_count db (get_group_entries user group Select_Entry_id));
      mret (get_group_entries user group Select_default, namespace count group_id 0 "")
  | None, None, Some f, _ =>
      feed_id ← lift (int_ f);
      feed ← Feed_get feed_id;
      count ← query (λ db, Query_count db (get_feed_entries user feed Select_Entry_id));
      mret (get_feed_entries user feed Select_default, namespace count 0 feed_id "feeds")
  | None, None, None, Some _ =>
      count ← query (λ db, Query_count db (get_all_entries user Select_Entry_id));
      mret (get_all_entries user Select_default, namespace count 0 0 "all")
  | None, None, None, None =>
      count ← query (λ db, Query_count db (get_unread_entries user Select_Entry_id));
      mret (get_unread_entries user Select_default, namespace count 0 0 "unread")
  end.

Definition set_count (count : nat) (ns : ViewVariables) : ViewVariables :=
  {| ns_count := count; ns_group_id := ns_group_id ns; ns_feed_id := ns_feed_id ns;
     ns_filter_class := ns_filter_class ns;
     ns_read_ids := ns_read_ids ns; ns_saved_ids := ns_saved_ids ns |}.

(** ** The handlers

    [now] is the clock reading the request sees; [self_user] is the user of
    the session, if any.  The route [/entries/(\d+)] hands [entry_id] over as
    a number. *)

(** [GET /entries/<entry_id>] *)
Definition entry `{Builtins} (now : datetime) (self_user : option User)
    (request : Request) (entry_id : Z) : M Response :=
  login_required self_user (λ user,
    entry ← try_except (Entry_get entry_id) [DoesNotExist "Entry"] (raise HTTPNotFound);
    _mark_entry now user entry "read";;
    '(q, namespace) ← _make_view_variables user request;
    n ← query (λ db,
      rows db
        (Query_limit 1
           (Query_order_by Entry_last_updated_on_desc
              (Query_where
                 (λ _ j, bool_decide (Entry_last_updated_on (j_entry j)
                                      < Entry_last_updated_on entry))
                 q))));
    mret (entry_html (set_count 0 namespace) entry n)).

(** [POST /entries/<entry_id>] *)
Definition entry_post `{Builtins} (now : datetime) (self_user : option User)
    (request : Request) (entry_id : Z) : M unit :=
  login_required self_user (λ user,
    status ← try_except (lift (getitem (POST request) "as")) [KeyError]
               (raise HTTPBadRequest);
    entry ← try_except (Entry_get entry_id) [DoesNotExist "Entry"] (raise HTTPNotFound);
    match POST request !! "mark" with
    | Some _ => _mark_entry now user entry status
    | None => mret ()
    end).

(** [GET /entries] *)
Definition entry_list `{Builtins} (self_user : option User) (request : Request)
    : M Response :=
  login_required self_user (λ user,
    '(q, namespace) ← _make_view_variables user request;
    offset ← lift (request_offset request);
    entries ← query (λ db,
      rows db
        (Query_limit ENTRIES_PER_PAGE
           (Query_offset offset
              (Query_order_by Entry_last_updated_on_desc q))));
    mret (entries_html namespace entries (offset + Z.of_nat ENTRIES_PER_PAGE)
            (GET request !! "prev_date"))).

(** [Feed.last_checked_on < before] in SQL: not true on a null column. *)
Definition sql_lt (a : option datetime) (b : datetime) : bool :=
  match a with
  | Some t => bool_decide (t < b)
  | None => false
  end.

(** The query [q] of [entry_list_mark_post]:
    [Entry.select().join(Feed).join(Subscription).where(...)], with no
    [distinct]. *)
Definition entry_list_mark_post_q (user : User) (before : datetime) (db : DB)
    : list Entry :=
  e ← entries db;
  f ← filter (λ f, Feed_id f = Entry_feed e) (feeds db);
  s ← filter (λ s, Subscription_feed s = Feed_id f) (subscriptions db);
  if bool_decide (Subscription_user s = User_id user)
     && negb (bool_decide (Entry_id e ∈ Read_entries user db))
     && sql_lt (Feed_last_checked_on f) before
  then [e] else [].

(** [POST /entries/mark].  The rows of [q] are those of the store as the
    loop starts. *)
Definition entry_list_mark_post `{Builtins} (now : datetime)
    (self_user : option User) (request : Request) : M Response :=
  login_required self_user (λ user,
    before ← try_except
               (s ← lift (getitem (POST request) "before");
                n ← lift (int_ s);
                lift (utcfromtimestamp n))
               [KeyError; ValueError] (raise HTTPBadRequest);
    q ← query (entry_list_mark_post_q user before);
    transaction
      (for_each q (λ entry,
         try_except (Read_create now user entry;; mret ()) [IntegrityError] log));;
    mret (modal_alert_html [("unread", "")])).

(** ** Schema constraints of [models.py]

    Primary keys and the unique indexes [(user, group, feed)] on
    subscriptions and [(user, entry)] on [Read] and [Saved]. *)
Record unique_keys (db : DB) : Prop := {
  uk_icons : NoDup (Icon_id <$> icons db);
  uk_feeds : NoDup (Feed_id <$> feeds db);
  uk_entries : NoDup (Entry_id <$> entries db);
  uk_subscriptions :
    NoDup ((λ s, (Subscription_user s, Subscription_group s, Subscription_feed s))
             <$> subscriptions db);
  uk_read : NoDup ((λ r, (Read_user r, Read_entry r)) <$> read db);
  uk_saved : NoDup ((λ s, (Saved_user s, Saved_entry s)) <$> saved db) }.

(** The foreign key [Feed.icon]: every feed's icon row exists. *)
Definition feed_icons_exist (db : DB) : Prop :=
  ∀ f, f ∈ feeds db → ∃ i, i ∈ icons db ∧ Icon_id i = Feed_icon f.

(** An entry is reachable by a user when one of the user's subscriptions
    leads to the entry's feed. *)
Definition reachable (db : DB) (user entry_id : Z) : Prop :=
  ∃ e f s, e ∈ entries db ∧ Entry_id e = entry_id
           ∧ f ∈ feeds db ∧ Feed_id f = Entry_feed e
           ∧ s ∈ subscriptions db ∧ Subscription_feed s = Feed_id f
           ∧ Subscription_user s = user.

(** The [try] block of [entry_list_mark_post]:
    [datetime.utcfromtimestamp(int(request.POST['before']))]. *)
Definition request_before `{Builtins} (request : Request) : result datetime :=
  match getitem (POST request) "before" with
  | Ok s => match int_ s with
            | Ok n => utcfromtimestamp n
            | Raise e => Raise e
            end
  | Raise e => Raise e
  end.

(** The cutoff a bulk-mark request carries, when [before] is there and
    converts. *)
Definition cutoff `{Builtins} (request : Request) : option datetime :=
  s ← POST request !! "before"; n ← py_int s;
  match utcfromtimestamp n with
  | Ok t => Some t
  | Raise _ => None
  end.

(** What bulk mark is to pick for a user and a cutoff: an entry the user
    reaches through a subscription, not read by the user, in a feed last
    checked strictly before the cutoff. *)
Definition mark_candidate (db : DB) (user : Z) (before : datetime) (entry_id : Z) : Prop :=
  ∃ e f s T, e ∈ entries db ∧ Entry_id e = entry_id
             ∧ f ∈ feeds db ∧ Feed_id f = Entry_feed e
             ∧ s ∈ subscriptions db ∧ Subscription_feed s = Feed_id f
             ∧ Subscription_user s = user
             ∧ Feed_last_checked_on f = Some T ∧ T < before
             ∧ ¬ is_read db user entry_id.

(** The five view queries of [frontend.py], as functions of the selected
    columns. *)
Inductive is_view (user : User) : (Select → Query) → Prop :=
  | view_unread : is_view user (get_unread_entries user)
  | view_saved : is_view user (get_saved_entries user)
  | view_all : is_view user (get_all_entries user)
  | view_group group : is_view user (get_group_entries user group)
  | view_feed feed : is_view user (get_feed_entries user feed).

(** A page of a view, as [entry_list] asks for it. *)
Definition page (offset : Z) (q : Query) : Query :=
  Query_limit ENTRIES_PER_PAGE
    (Query_offset offset (Query_order_by Entry_last_updated_on_desc q)).

(** The entry ids a list of result rows shows. *)
Definition ids (rs : list Row) : list Z := Row_entry_id <$> rs.

(** The request with [offset=s] put into its query string. *)
Definition with_offset (s : string) (request : Request) : Request :=
  {| GET := <["offset" := s]> (GET request); POST := POST request |}.

(** ** A small store and plain decimal conversions, for the examples *)
Module Sample.

Fixpoint digits (s : string) (acc : Z) : option Z :=
  match s with
  | EmptyString => Some acc
  | String c s' =>
      let n := Z.of_nat (Ascii.nat_of_ascii c) in
      if bool_decide (48 ≤ n ≤ 57) then digits s' (10 * acc + (n - 48)) else None
  end.

(** Unsigned decimal text only; seconds since the epoch for the years 1 to
    9999, [ValueError] outside them, and [OverflowError] for an integer that
    no float holds. *)
Definition builtins : Builtins := {|
  py_int s := match s with EmptyString => None | _ => digits s 0 end;
  utcfromtimestamp n :=
    if bool_decide (-62135596800 ≤ n ≤ 253402300799) then Ok n
    else if bool_decide (- 2 ^ 1024 < n < 2 ^ 1024) then Raise ValueError
    else Raise OverflowError |}.

Definition alice : User :=
  {| User_id := 1; User_username := "alice"; User_password := "secret";
     User_email := None; User_api_key := "k1"; User_is_enabled := true |}.

Definition bob : User :=
  {| User_id := 2; User_username := "bob"; User_password := "hidden";
     User_email := None; User_api_key := "k2"; User_is_enabled := true |}.

Definition feed (id : Z) (checked : option datetime) : Feed :=
  {| Feed_id := id; Feed_is_enabled := true; Feed_icon := 1;
     Feed_self_link := "http://example.org/feed"; Feed_error_count := 0;
     Feed_title := None; Feed_alternate_link := None; Feed_etag := None;
     Feed_last_updated_on := None; Feed_last_checked_on := checked;
     Feed_last_status := None |}.

Definition item (id feed_id : Z) (updated : datetime) : Entry :=
  {| Entry_id := id; Entry_guid := "guid"; Entry_feed := feed_id;
     Entry_title := "title"; Entry_content_type := "text/html";
     Entry_content := "content"; Entry_last_updated_on := updated;
     Entry_is_local := false; Entry_author := None; Entry_link := None |}.

Definition sub (id user group feed_id : Z) : Subscription :=
  {| Subscription_id := id; Subscription_user := user;
     Subscription_group := group; Subscription_feed := feed_id |}.

(** alice reaches feed 1 through groups 1 and 2, and feeds 2 (never
    checked) and 3 through group 1; bob reaches feed 3 only.  Entry 2 is
    read by alice. *)
Definition db : DB :=
  {| icons := [ {| Icon_id := 1; Icon_data := "data:" |} ];
     groups := [ {| Group_id := 1; Group_title := "Default" |};
                 {| Group_id := 2; Group_title := "News" |} ];
     feeds := [ feed 1 (Some 100); feed 2 None; feed 3 (Some 500) ];
     entries := [ item 1 1 10; item 2 1 20; item 3 2 30; item 4 3 40 ];
     saved := [];
     read := [ {| Read_id := 1; Read_user := 1; Read_entry := 2; Read_read_on := 50 |} ];
     subscriptions := [ sub 1 1 1 1; sub 2 1 2 1; sub 3 1 1 2; sub 4 1 1 3;
                        sub 5 2 1 3 ] |}.

(** One feed of 45 entries, updated at 1, 2, ..., 45, in alice's group 1. *)
Definition db45 : DB :=
  {| icons := icons db;
     groups := groups db;
     feeds := [ feed 1 (Some 100) ];
     entries := (λ n : nat, item (Z.of_nat n) 1 (Z.of_nat n)) <$> seq 1 45;
     saved := [];
     read := [];
     subscriptions := [ sub 1 1 1 1 ] |}.

Definition request (get post : list (string * string)) : Request :=
  {| GET := list_to_map get; POST := list_to_map post |}.

End Sample.


(** ** The rest of the frontend and of the models

    [FrontendApp.feed] and [feed_list] with the queries [get_feeds] and
    [get_groups], [get_stats], [render_message], and from [models.py]
    [User.validate_credentials] and [setup]. *)

(** What the join of [_q] reaches for a user: an entry of a feed that has its
    icon row and a subscription of the user. *)
Definition reachable_with_icon (db : DB) (user entry_id : Z) : Prop :=
  ∃ e f i s, e ∈ entries db ∧ Entry_id e = entry_id
             ∧ f ∈ feeds db ∧ Feed_id f = Entry_feed e
             ∧ i ∈ icons db ∧ Icon_id i = Feed_icon f
             ∧ s ∈ subscriptions db ∧ Subscription_feed s = Feed_id f
             ∧ Subscription_user s = user.

(** Reachability through those of a user's subscriptions that satisfy [P]. *)
Definition reachable_through (db : DB) (user : Z) (P : Subscription → Prop)
    (entry_id : Z) : Prop :=
  ∃ e f s, e ∈ entries db ∧ Entry_id e = entry_id
           ∧ f ∈ feeds db ∧ Feed_id f = Entry_feed e
           ∧ s ∈ subscriptions db ∧ Subscription_feed s = Feed_id f
           ∧ Subscription_user s = user ∧ P s.

(** Newest first, on rows of the default columns. *)
Definition newest_first (r1 r2 : Row) : Prop :=
  ∀ e1 f1 i1 e2 f2 i2,
    r1 = Row_Entry_Feed_Icon e1 f1 i1 → r2 = Row_Entry_Feed_Icon e2 f2 i2 →
    Entry_last_updated_on e2 ≤ Entry_last_updated_on e1.

(** The query [n] of [entry]: the newest row of the view that is older than
    the entry. *)
Definition next_entries (entry : Entry) (q : Query) : Query :=
  Query_limit 1
    (Query_order_by Entry_last_updated_on_desc
       (Query_where
          (λ _ j, bool_decide (Entry_last_updated_on (j_entry j)
                               < Entry_last_updated_on entry))
          q)).

(** The query of [FrontendApp.feed],
    [Subscription.select(Subscription, Group).join(Group).where(...)], read
    as [[s.group for s in q]]. *)
Definition feed_groups (user : User) (feed : Feed) (db : DB) : list Group :=
  s ← subscriptions db;
  g ← filter (λ g, Group_id g = Subscription_group s) (groups db);
  if bool_decide (Subscription_user s = User_id user)
     && bool_decide (Subscription_feed s = Feed_id feed)
  then [g] else [].

(** [GET /feeds/edit/<feed_id>]: the template variables [feed] and
    [groups]. *)
Definition feed (self_user : option User) (request : Request) (feed_id : Z)
    : M (Feed * list Group) :=
  login_required self_user (λ user,
    feed ← try_except (Feed_get feed_id) [DoesNotExist "Feed"] (raise HTTPNotFound);
    groups ← query (feed_groups user feed);
    mret (feed, groups)).

(** The order of titles in [ORDER BY title] is the engine's: its collation
    and its place for nulls. *)
Class Collation := {
  title_le : relation (option string);
  title_le_dec :: RelDecision title_le }.

(** Feed queries: the join [Feed ⋈ Icon] and, from [Feed] again,
    [⋈ Subscription]. *)
Record FeedJoinRow := {
  fj_feed : Feed;
  fj_icon : Icon;
  fj_subscription : Subscription }.

(** [*select]: empty (then [Feed, Icon]) or [Feed.id]. *)
Inductive FeedSelect :=
  | FeedSelect_default
  | FeedSelect_Feed_id.

Inductive FeedRow :=
  | FeedRow_Feed_Icon (f : Feed) (i : Icon)
  | FeedRow_Feed_id (id : Z).

#[global] Instance FeedRow_eq_dec : EqDecision FeedRow.
Proof. solve_decision. Defined.

Record FeedQuery := {
  fq_select : FeedSelect;
  fq_where : DB → FeedJoinRow → bool;
  fq_distinct : bool;
  fq_order_by_title : bool;
  fq_offset : option Z;
  fq_limit : option nat }.

Definition feeds_joined (db : DB) : list FeedJoinRow :=
  f ← feeds db;
  i ← filter (λ i, Icon_id i = Feed_icon f) (icons db);
  s ← filter (λ s, Subscription_feed s = Feed_id f) (subscriptions db);
  [ {| fj_feed := f; fj_icon := i; fj_subscription := s |} ].

Definition feed_project (sel : FeedSelect) (j : FeedJoinRow) : FeedRow :=
  match sel with
  | FeedSelect_default => FeedRow_Feed_Icon (fj_feed j) (fj_icon j)
  | FeedSelect_Feed_id => FeedRow_Feed_id (Feed_id (fj_feed j))
  end.

Definition FeedRow_feed_id (r : FeedRow) : Z :=
  match r with
  | FeedRow_Feed_Icon f _ => Feed_id f
  | FeedRow_Feed_id id => id
  end.

(** [Feed.title], ascending. *)
Definition Feed_title_asc `{Collation} : relation FeedJoinRow :=
  λ j1 j2, title_le (Feed_title (fj_feed j1)) (Feed_title (fj_feed j2)).

#[global] Instance Feed_title_asc_dec `{Collation} : RelDecision Feed_title_asc.
Proof. intros j1 j2. unfold Feed_title_asc. apply _. Defined.

(** [Group.title], ascending. *)
Definition Group_title_asc `{Collation} : relation Group :=
  λ g1 g2, title_le (Some (Group_title g1)) (Some (Group_title g2)).

#[global] Instance Group_title_asc_dec `{Collation} : RelDecision Group_title_asc.
Proof. intros g1 g2. unfold Group_title_asc. apply _. Defined.

Definition feed_unpaged_rows `{Collation} (db : DB) (q : FeedQuery) : list FeedRow :=
  let js := filter (λ j, fq_where q db j) (feeds_joined db) in
  let js := if fq_order_by_title q then merge_sort Feed_title_asc js else js in
  let rs := feed_project (fq_select q) <$> js in
  if fq_distinct q then remove_dups rs else rs.

Definition feed_rows `{Collation} (db : DB) (q : FeedQuery) : list FeedRow :=
  let rs := match fq_offset q with
            | Some n => drop (Z.to_nat n) (feed_unpaged_rows db q)
            | None => feed_unpaged_rows db q
            end in
  match fq_limit q with
  | Some n => take n rs
  | None => rs
  end.

Definition get_feeds (user : User) (sel : FeedSelect) : FeedQuery :=
  {| fq_select := sel;
     fq_where := λ _ j,
       bool_decide (Subscription_user (fj_subscription j) = User_id user);
     fq_distinct := true; fq_order_by_title := false;
     fq_offset := None; fq_limit := None |}.


(** [Group.select().join(Subscription).where(Subscription.user == user)
    .distinct().order_by(Group.title)], iterated. *)
Definition get_groups `{Collation} (user : User) (db : DB) : list Group :=
  remove_dups
    (merge_sort Group_title_asc
       (g ← groups db;
        s ← filter (λ s, Subscription_group s = Group_id g) (subscriptions db);
        if bool_decide (Subscription_user s = User_id user) then [g] else [])).




(** [utilities.format_datetime] is taken as given. *)
Class Formatting := {
  format_datetime : datetime → string }.

(** [fn.Max(Feed.last_checked_on)] over all feeds: the largest non-null
    value, null when there is none. *)
Definition Max_last_checked_on (db : DB) : option datetime :=
  foldr (λ f m, match Feed_last_checked_on f with
                | Some t => Some (match m with
                                  | Some x => Z.max t x
                                  | None => t
                                  end)
                | None => m
                end)
        None (feeds db).

Record Stats := {
  stats_now : datetime;
  stats_last_checked_on : string;
  stats_entry_count : nat;
  stats_unread_entry_count : nat;
  stats_feed_count : nat;
  stats_active_feed_count : nat }.

(** [get_stats] *)
Definition get_stats `{Formatting} (now : datetime) (db : DB) : Stats :=
  {| stats_now := now;
     stats_last_checked_on :=
       match Max_last_checked_on db with
       | Some t => format_datetime t
       | None => "Never"
       end;
     stats_entry_count := length (entries db);
     stats_unread_entry_count :=
       length (filter (λ e, Entry_id e ∉ Read_entry <$> read db) (entries db));
     stats_feed_count := length (feeds db);
     stats_active_feed_count :=
       length (filter (λ f, Feed_is_enabled f = true) (feeds db)) |}.

(** [unicode.lower] is taken as given. *)
Class Text := {
  lower : string → string }.

(** [message.split(u' ', 1)] when it yields two parts: the text before the
    first space and the text after it; [None] when there is no space and the
    split yields one part. *)
Fixpoint split_space (s : string) : option (string * string) :=
  match s with
  | EmptyString => None
  | String c s' =>
      if decide (c = Ascii.Space) then Some (EmptyString, s')
      else match split_space s' with
           | Some (a, b) => Some (String c a, b)
           | None => None
           end
  end.

(** A string-quote character. *)
Definition dquote : string := String (Ascii.ascii_of_nat 34) EmptyString.

(** What [render_message] ends with: markup, or the [UnboundLocalError] of
    reading a local name that was never bound. *)
Inductive Rendered :=
  | Markup (s : string)
  | UnboundLocalError (name : string).

(** [render_message]: unpacking a one-part split raises [ValueError], and the
    handler of that, [return text], reads [text] before any assignment. *)
Definition render_message `{Text} (message : string) : Rendered :=
  if decide (message = EmptyString) then Markup EmptyString
  else match split_space message with
       | Some (klass, text) =>
           Markup (String.append "<div class="
                  (String.append dquote
                  (String.append "alert alert--"
                  (String.append (lower klass)
                  (String.append dquote
                  (String.append ">"
                  (String.append text "</div>")))))))
       | None => UnboundLocalError "text"
       end.

(** [User.validate_credentials] over the users table: the first enabled user
    with that name and password, or [None]. *)
Definition validate_credentials (users : list User) (username password : string)
    : option User :=
  head (filter (λ u, User_username u = username ∧ User_password u = password
                     ∧ User_is_enabled u = true) users).

Definition set_groups (gs : list Group) (db : DB) : DB :=
  {| icons := icons db; groups := gs; feeds := feeds db;
     entries := entries db; saved := saved db; read := read db;
     subscriptions := subscriptions db |}.

Definition set_icons (ics : list Icon) (db : DB) : DB :=
  {| icons := ics; groups := groups db; feeds := feeds db;
     entries := entries db; saved := saved db; read := read db;
     subscriptions := subscriptions db |}.

(** [Group.create(title=title)]; [title] is unique. *)
Definition Group_create (title : string) : M Group :=
  λ db,
    match filter (λ g, Group_title g = title) (groups db) with
    | _ :: _ => (db, Raise IntegrityError)
    | [] =>
        let g := {| Group_id := next_id (Group_id <$> groups db);
                    Group_title := title |} in
        (set_groups (groups db ++ [g]) db, Ok g)
    end.

(** [Icon.create(data=data)] *)
Definition Icon_create (data : string) : M Icon :=
  λ db,
    let i := {| Icon_id := next_id (Icon_id <$> icons db); Icon_data := data |} in
    (set_icons (icons db ++ [i]) db, Ok i).

Definition DEFAULT_GROUP : string := "Default".

(** [setup], once the tables exist: the default group and, when that was
    new, the default icon [favicon.DEFAULT_FAVICON].  The [return] in the
    handler leaves the [with] block normally. *)
Definition setup (DEFAULT_FAVICON : string) : M unit :=
  transaction
    (created ← try_except (Group_create DEFAULT_GROUP;; mret true)
                 [IntegrityError] (mret false);
     if (created : bool) then Icon_create DEFAULT_FAVICON;; mret () else mret ()).

(** Orders and a second store for the examples. *)
Module Sample2.

Definition collation : Collation := {|
  title_le a b :=
    match a, b with
    | None, _ => True
    | Some _, None => False
    | Some x, Some y => String.leb x y = true
    end;
  title_le_dec a b :=
    match a, b with
    | None, _ => left I
    | Some _, None => right (λ H, H)
    | Some x, Some y => decide (String.leb x y = true)
    end |}.

Definition formatting : Formatting := {|
  format_datetime t := "t" |}.

(** Lower case for the letters A to Z, other characters as they are. *)
Fixpoint ascii_lower (s : string) : string :=
  match s with
  | EmptyString => EmptyString
  | String c s' =>
      let n := Ascii.nat_of_ascii c in
      String (if bool_decide (65 ≤ n ≤ 90)%nat then Ascii.ascii_of_nat (n + 32) else c)
             (ascii_lower s')
  end.

Definition text : Text := {|
  lower := ascii_lower |}.


(** The decimal text of [10 ^ 400]. *)
Definition huge : string :=
  String.append "1" (String.concat EmptyString (replicate 400 "0")).

Definition users : list User := [ Sample.alice; Sample.bob ].

End Sample2.

(** * Properties *)

(** ** The state tracker *)

Lemma filter_nil_iff {A} (P : A → Prop) `{!∀ x, Decision (P x)} (l : list A) :
  filter P l = [] ↔ ∀ x, x ∈ l → ¬ P x.
Proof.
  split.
  - intros Hnil x Hx HP. by eapply (filter_nil_not_elem_of P).
  - intros Hall. induction l as [|x l IH]; [done|].
    rewrite filter_cons_False; [|apply Hall; left].
    apply IH. intros y Hy. apply Hall. by right.
Qed.

Lemma filter_idemp {A} (P : A → Prop) `{!∀ x, Decision (P x)} (l : list A) :
  filter P (filter P l) = filter P l.
Proof.
  induction l as [|x l IH]; [done|].
  rewrite filter_cons. case_decide; [|done].
  rewrite filter_cons_True by done. by rewrite IH.
Qed.

Lemma filter_not_filter {A} (P : A → Prop) `{!∀ x, Decision (P x)} (l : list A) :
  filter P (filter (λ x, ¬ P x) l) = [].
Proof.
  apply filter_nil_iff. intros x Hx HP.
  apply list_elem_of_filter in Hx as [HnP _]. by apply HnP.
Qed.

Lemma set_read_set_read rs rs' db : set_read rs (set_read rs' db) = set_read rs db.
Proof. done. Qed.

Lemma set_saved_set_saved ss ss' db : set_saved ss (set_saved ss' db) = set_saved ss db.
Proof. done. Qed.

Lemma Read_matches_nil db u e :
  filter (Read_matches u e) (read db) = [] ↔ ¬ is_read db u e.
Proof.
  rewrite filter_nil_iff. unfold is_read, Read_matches. split.
  - intros Hall (r & Hr & Hu & He). by apply (Hall r).
  - intros Hno r Hr [Hu He]. apply Hno. eauto.
Qed.

Lemma Saved_matches_nil db u e :
  filter (Saved_matches u e) (saved db) = [] ↔ ¬ is_saved db u e.
Proof.
  rewrite filter_nil_iff. unfold is_saved, Saved_matches. split.
  - intros Hall (s & Hs & Hu & He). by apply (Hall s).
  - intros Hno s Hs [Hu He]. apply Hno. eauto.
Qed.

Lemma is_read_dec db u e : Decision (is_read db u e).
Proof.
  destruct (filter (Read_matches u e) (read db)) as [|r l] eqn:E.
  - right. by apply Read_matches_nil.
  - left. assert (r ∈ filter (Read_matches u e) (read db)) as Hr by (rewrite E; left).
    apply list_elem_of_filter in Hr as [[? ?] ?]. by exists r.
Defined.

Lemma is_saved_dec db u e : Decision (is_saved db u e).
Proof.
  destruct (filter (Saved_matches u e) (saved db)) as [|s l] eqn:E.
  - right. by apply Saved_matches_nil.
  - left. assert (s ∈ filter (Saved_matches u e) (saved db)) as Hs by (rewrite E; left).
    apply list_elem_of_filter in Hs as [[? ?] ?]. by exists s.
Defined.

(** An insert that meets the unique index raises and stores nothing. *)
Lemma Read_create_present now user entry db :
  is_read db (User_id user) (Entry_id entry) →
  Read_create now user entry db = (db, Raise IntegrityError).
Proof.
  intros Hr. unfold Read_create.
  destruct (filter _ (read db)) eqn:E; [|done].
  by apply Read_matches_nil in E.
Qed.

Lemma Read_create_absent now user entry db :
  ¬ is_read db (User_id user) (Entry_id entry) →
  Read_create now user entry db
  = (set_read (read db ++ [new_Read now user entry db]) db,
     Ok (new_Read now user entry db)).
Proof.
  intros Hr. unfold Read_create.
  apply Read_matches_nil in Hr. by rewrite Hr.
Qed.

Lemma Saved_create_present now user entry db :
  is_saved db (User_id user) (Entry_id entry) →
  Saved_create now user entry db = (db, Raise IntegrityError).
Proof.
  intros Hs. unfold Saved_create.
  destruct (filter _ (saved db)) eqn:E; [|done].
  by apply Saved_matches_nil in E.
Qed.

Lemma Saved_create_absent now user entry db :
  ¬ is_saved db (User_id user) (Entry_id entry) →
  Saved_create now user entry db
  = (set_saved (saved db ++ [new_Saved now user entry db]) db,
     Ok (new_Saved now user entry db)).
Proof.
  intros Hs. unfold Saved_create.
  apply Saved_matches_nil in Hs. by rewrite Hs.
Qed.

Lemma is_read_snoc now user entry db u e :
  is_read (set_read (read db ++ [new_Read now user entry db]) db) u e
  ↔ is_read db u e ∨ (u = User_id user ∧ e = Entry_id entry).
Proof.
  unfold is_read; simpl. split.
  - intros (r & Hr & Hu & He). apply elem_of_app in Hr as [Hr|Hr].
    + left. eauto.
    + right. apply list_elem_of_singleton in Hr. subst r. simpl in *. auto.
  - intros [(r & Hr & Hu & He)|[-> ->]].
    + exists r. rewrite elem_of_app. auto.
    + exists (new_Read now user entry db). rewrite elem_of_app, list_elem_of_singleton. auto.
Qed.

Lemma is_saved_snoc now user entry db u e :
  is_saved (set_saved (saved db ++ [new_Saved now user entry db]) db) u e
  ↔ is_saved db u e ∨ (u = User_id user ∧ e = Entry_id entry).
Proof.
  unfold is_saved; simpl. split.
  - intros (s & Hs & Hu & He). apply elem_of_app in Hs as [Hs|Hs].
    + left. eauto.
    + right. apply list_elem_of_singleton in Hs. subst s. simpl in *. auto.
  - intros [(s & Hs & Hu & He)|[-> ->]].
    + exists s. rewrite elem_of_app. auto.
    + exists (new_Saved now user entry db). rewrite elem_of_app, list_elem_of_singleton. auto.
Qed.

(** [_mark_entry] branch by branch. *)
Lemma mark_read_present now user entry db :
  is_read db (User_id user) (Entry_id entry) →
  _mark_entry now user entry "read" db = (db, Ok ()).
Proof.
  intros Hr. unfold _mark_entry; simpl.
  unfold try_except, mbind, M_bind, bind.
  by rewrite Read_create_present.
Qed.

Lemma mark_read_absent now user entry db :
  ¬ is_read db (User_id user) (Entry_id entry) →
  _mark_entry now user entry "read" db
  = (set_read (read db ++ [new_Read now user entry db]) db, Ok ()).
Proof.
  intros Hr. unfold _mark_entry; simpl.
  unfold try_except, mbind, M_bind, bind.
  by rewrite Read_create_absent.
Qed.

Lemma mark_unread now user entry db :
  _mark_entry now user entry "unread" db
  = (set_read (filter (λ r, ¬ Read_matches (User_id user) (Entry_id entry) r) (read db)) db,
     Ok ()).
Proof.
  unfold _mark_entry; simpl.
  unfold mbind, M_bind, bind, Read_delete. by case_decide.
Qed.

Lemma mark_saved_present now user entry db :
  is_saved db (User_id user) (Entry_id entry) →
  _mark_entry now user entry "saved" db = (db, Ok ()).
Proof.
  intros Hs. unfold _mark_entry; simpl.
  unfold try_except, mbind, M_bind, bind.
  by rewrite Saved_create_present.
Qed.

Lemma mark_saved_absent now user entry db :
  ¬ is_saved db (User_id user) (Entry_id entry) →
  _mark_entry now user entry "saved" db
  = (set_saved (saved db ++ [new_Saved now user entry db]) db, Ok ()).
Proof.
  intros Hs. unfold _mark_entry; simpl.
  unfold try_except, mbind, M_bind, bind.
  by rewrite Saved_create_absent.
Qed.

Lemma mark_unsaved now user entry db :
  _mark_entry now user entry "unsaved" db
  = (set_saved (filter (λ s, ¬ Saved_matches (User_id user) (Entry_id entry) s) (saved db)) db,
     Ok ()).
Proof.
  unfold _mark_entry; simpl.
  unfold mbind, M_bind, bind, Saved_delete. by case_decide.
Qed.

Lemma mark_other now user entry status db :
  status ≠ "read" → status ≠ "unread" → status ≠ "saved" → status ≠ "unsaved" →
  _mark_entry now user entry status db = (db, Ok ()).
Proof.
  intros. unfold _mark_entry. by repeat case_decide.
Qed.

(** C3. The single-entry mark is idempotent and never raises: for every
    user, entry and status (the four statuses [read], [unread], [saved],
    [unsaved], and any other text, which marks nothing), a first application
    returns normally, and a second application of the same status, at any
    later clock reading, returns normally and leaves the whole store, hence
    the Read and Saved tables, exactly as the first one left it.  The
    [IntegrityError] of an insert that is already there and the zero count
    of a delete that finds nothing stay inside [_mark_entry]. *)
Theorem mark_entry_idempotent (now1 now2 : datetime) (user : User) (entry : Entry)
    (status : string) (db : DB) :
  ∃ db1, _mark_entry now1 user entry status db = (db1, Ok ())
         ∧ _mark_entry now2 user entry status db1 = (db1, Ok ()).
Proof.
  destruct (decide (status = "read")) as [->|Hr].
  { destruct (is_read_dec db (User_id user) (Entry_id entry)) as [Hin|Hout].
    - exists db. by rewrite !mark_read_present.
    - eexists. rewrite mark_read_absent by done. split; [done|].
      apply mark_read_present. apply is_read_snoc. by right. }
  destruct (decide (status = "unread")) as [->|Hu].
  { eexists. rewrite mark_unread. split; [done|].
    rewrite mark_unread. simpl. by rewrite filter_idemp, set_read_set_read. }
  destruct (decide (status = "saved")) as [->|Hs].
  { destruct (is_saved_dec db (User_id user) (Entry_id entry)) as [Hin|Hout].
    - exists db. by rewrite !mark_saved_present.
    - eexists. rewrite mark_saved_absent by done. split; [done|].
      apply mark_saved_present. apply is_saved_snoc. by right. }
  destruct (decide (status = "unsaved")) as [->|Hn].
  { eexists. rewrite mark_unsaved. split; [done|].
    rewrite mark_unsaved. simpl. by rewrite filter_idemp, set_saved_set_saved. }
  exists db. by rewrite !mark_other.
Qed.

(** ** Lookups by key *)

Lemma filter_head_elem {A} (P : A → Prop) `{!∀ x, Decision (P x)} (l k : list A) x :
  filter P l = x :: k → P x ∧ x ∈ l.
Proof.
  intros E. apply (list_elem_of_filter P). rewrite E. left.
Qed.

Lemma Entry_get_found id db :
  (∃ e, e ∈ entries db ∧ Entry_id e = id) →
  ∃ e, Entry_get id db = (db, Ok e) ∧ e ∈ entries db ∧ Entry_id e = id.
Proof.
  intros (e & He & Hid). unfold Entry_get.
  destruct (filter _ (entries db)) as [|e0 k] eqn:E.
  - exfalso. by eapply (proj1 (filter_nil_iff _ _) E e).
  - apply filter_head_elem in E as [? ?]. eauto.
Qed.

Lemma Group_get_found id db :
  (∃ g, g ∈ groups db ∧ Group_id g = id) →
  ∃ g, Group_get id db = (db, Ok g) ∧ g ∈ groups db ∧ Group_id g = id.
Proof.
  intros (g & Hg & Hid). unfold Group_get.
  destruct (filter _ (groups db)) as [|g0 k] eqn:E.
  - exfalso. by eapply (proj1 (filter_nil_iff _ _) E g).
  - apply filter_head_elem in E as [? ?]. eauto.
Qed.

Lemma no_row_fits model id : fits_int64 id → no_row model id = DoesNotExist model.
Proof. intros Hfit. unfold no_row. by rewrite bool_decide_eq_true_2. Qed.

Lemma no_row_overflow model id : ¬ fits_int64 id → no_row model id = OverflowError.
Proof. intros Hfit. unfold no_row. by rewrite bool_decide_eq_false_2. Qed.

Lemma Entry_get_missing id db :
  fits_int64 id →
  (∀ e, e ∈ entries db → Entry_id e ≠ id) →
  Entry_get id db = (db, Raise (DoesNotExist "Entry")).
Proof.
  intros Hfit Hno. unfold Entry_get.
  rewrite (proj2 (filter_nil_iff (λ e, Entry_id e = id) (entries db)) Hno).
  by rewrite no_row_fits.
Qed.

Lemma Feed_get_missing id db :
  fits_int64 id →
  (∀ f, f ∈ feeds db → Feed_id f ≠ id) →
  Feed_get id db = (db, Raise (DoesNotExist "Feed")).
Proof.
  intros Hfit Hno. unfold Feed_get.
  rewrite (proj2 (filter_nil_iff (λ f, Feed_id f = id) (feeds db)) Hno).
  by rewrite no_row_fits.
Qed.

Lemma Group_get_missing id db :
  fits_int64 id →
  (∀ g, g ∈ groups db → Group_id g ≠ id) →
  Group_get id db = (db, Raise (DoesNotExist "Group")).
Proof.
  intros Hfit Hno. unfold Group_get.
  rewrite (proj2 (filter_nil_iff (λ g, Group_id g = id) (groups db)) Hno).
  by rewrite no_row_fits.
Qed.

Lemma Feed_get_found id db :
  (∃ f, f ∈ feeds db ∧ Feed_id f = id) →
  ∃ f, Feed_get id db = (db, Ok f) ∧ f ∈ feeds db ∧ Feed_id f = id.
Proof.
  intros (f & Hf & Hid). unfold Feed_get.
  destruct (filter _ (feeds db)) as [|f0 k] eqn:E.
  - exfalso. by eapply (proj1 (filter_nil_iff _ _) E f).
  - apply filter_head_elem in E as [? ?]. eauto.
Qed.

Lemma Group_get_db id db : (Group_get id db).1 = db.
Proof. unfold Group_get. by destruct (filter _ _). Qed.

Lemma Feed_get_db id db : (Feed_get id db).1 = db.
Proof. unfold Feed_get. by destruct (filter _ _). Qed.

(** Unfolding of the monad operations. *)
Ltac run :=
  unfold mbind, M_bind, bind, mret, M_ret, ret, query, lift, raise, log,
    try_except, login_required; simpl.

Section view_variables.
Context `{Builtins}.

(** Building the view variables reads the store only. *)
Lemma make_view_variables_db user request db :
  (_make_view_variables user request db).1 = db.
Proof.
  unfold _make_view_variables. run.
  destruct (GET request !! "saved"); [done|].
  destruct (GET request !! "group") as [g|].
  { destruct (int_ g) as [gid|]; [|done].
    pose proof (Group_get_db gid db) as Hg.
    destruct (Group_get gid db) as [db' [grp|]]; simpl in *; by subst. }
  destruct (GET request !! "feed") as [f|].
  { destruct (int_ f) as [fid|]; [|done].
    pose proof (Feed_get_db fid db) as Hf.
    destruct (Feed_get fid db) as [db' [fd|]]; simpl in *; by subst. }
  by destruct (GET request !! "all").
Qed.

(** The variables are built after the mark: [read_ids] is read from the
    store the view is built on. *)
Lemma make_view_variables_read_ids user request db db' q ns :
  _make_view_variables user request db = (db', Ok (q, ns)) →
  ns_read_ids ns = read_ids_of user db.
Proof.
  unfold _make_view_variables. run.
  destruct (GET request !! "saved"); [by intros [= <- <- <-]|].
  destruct (GET request !! "group") as [g|].
  { destruct (int_ g) as [gid|]; [|done].
    pose proof (Group_get_db gid db) as Hg.
    destruct (Group_get gid db) as [db1 [grp|]]; simpl in *; [|done].
    subst. by intros [= <- <- <-]. }
  destruct (GET request !! "feed") as [f|].
  { destruct (int_ f) as [fid|]; [|done].
    pose proof (Feed_get_db fid db) as Hf.
    destruct (Feed_get fid db) as [db1 [fd|]]; simpl in *; [|done].
    subst. by intros [= <- <- <-]. }
  destruct (GET request !! "all"); by intros [= <- <- <-].
Qed.

Lemma elem_of_read_ids_of user db id :
  id ∈ read_ids_of user db
  ↔ (∃ e, e ∈ entries db ∧ Entry_id e = id) ∧ is_read db (User_id user) id.
Proof.
  unfold read_ids_of, is_read. rewrite elem_of_list_to_set, list_elem_of_bind.
  split.
  - intros (e & Hin & He). apply list_elem_of_bind in Hin as (r & Hin & Hr).
    apply list_elem_of_singleton in Hin. subst id.
    apply list_elem_of_filter in Hr as [[Hre Hru] Hr]. eauto 10.
  - intros [(e & He & <-) (r & Hr & Hru & Hre)].
    exists e. split; [|done]. apply list_elem_of_bind. exists r.
    rewrite list_elem_of_singleton, list_elem_of_filter. auto.
Qed.

End view_variables.

(** ** Viewing an entry *)

(** C10. Viewing an entry writes: for a logged-in user and an existing
    entry, the store [GET /entries/<id>] leaves behind has the entry read by
    that user, whatever the handler then answers.  When the entry was read
    already the store is unchanged (the insert is absorbed); otherwise
    exactly one [Read] row for (user, entry) is appended and nothing else
    changes.  The page is built after the write: the [read_ids] handed to the
    template contain the entry. *)
Theorem entry_view_marks_read `{Builtins} (now : datetime) (user : User)
    (request : Request) (entry_id : Z) (db : DB) :
  (∃ e, e ∈ entries db ∧ Entry_id e = entry_id) →
  let out := entry now (Some user) request entry_id db in
  is_read out.1 (User_id user) entry_id
  ∧ (is_read db (User_id user) entry_id → out.1 = db)
  ∧ (¬ is_read db (User_id user) entry_id →
     ∃ r, out.1 = set_read (read db ++ [r]) db
          ∧ Read_user r = User_id user ∧ Read_entry r = entry_id)
  ∧ (∀ ns e n, out.2 = Ok (entry_html ns e n) →
     Entry_id e = entry_id ∧ entry_id ∈ ns_read_ids ns).
Proof.
  intros Hex.
  destruct (Entry_get_found entry_id db Hex) as (e & Hget & He & Hid).
  assert (∃ db1,
    _mark_entry now user e "read" db = (db1, Ok ())
    ∧ entries db1 = entries db
    ∧ is_read db1 (User_id user) entry_id
    ∧ (is_read db (User_id user) entry_id → db1 = db)
    ∧ (¬ is_read db (User_id user) entry_id →
       ∃ r, db1 = set_read (read db ++ [r]) db
            ∧ Read_user r = User_id user ∧ Read_entry r = entry_id))
    as (db1 & Hmark & Hent & Hread & Hsame & Hnew).
  { subst entry_id.
    destruct (is_read_dec db (User_id user) (Entry_id e)) as [Hin|Hout].
    - exists db. rewrite mark_read_present by done.
      split_and!; [done..|]. by intros [].
    - eexists. rewrite mark_read_absent by done.
      split_and!; [done|done| |done|].
      + apply is_read_snoc. by right.
      + intros _. by eexists. }
  assert (entry now (Some user) request entry_id db
          = match _make_view_variables user request db1 with
            | (db2, Ok (q, ns)) =>
                (db2, Ok (entry_html (set_count 0 ns) e
                  (rows db2
                     (Query_limit 1
                        (Query_order_by Entry_last_updated_on_desc
                           (Query_where
                              (λ _ j, bool_decide (Entry_last_updated_on (j_entry j)
                                                   < Entry_last_updated_on e))
                              q))))))
            | (db2, Raise x) => (db2, Raise x)
            end) as ->.
  { unfold entry. run. rewrite Hget, Hmark.
    by destruct (_make_view_variables user request db1) as [db2 [[q ns]|x]]. }
  pose proof (make_view_variables_db user request db1) as Hdb.
  destruct (_make_view_variables user request db1) as [db2 [[q ns]|x]] eqn:Hview;
    simpl in *; subst db2.
  - split_and!; [done..|].
    intros ns' e' n [= <- <- <-]. split; [done|]. simpl.
    rewrite (make_view_variables_read_ids _ _ _ _ _ _ Hview).
    apply elem_of_read_ids_of. split; [|done].
    exists e. by rewrite Hent.
  - split_and!; [done..|]. intros ns' e' n [=].
Qed.

Lemma entry_view_marks_read_witness :
  is_read (entry (H := Sample.builtins) 77 (Some Sample.bob)
             (Sample.request [] []) 4 Sample.db).1 2 4.
Proof.
  apply (entry_view_marks_read (H := Sample.builtins) 77 Sample.bob
           (Sample.request [] []) 4 Sample.db).
  exists (Sample.item 4 3 40). split; [|reflexivity].
  unfold Sample.db; simpl. repeat first [apply list_elem_of_here|apply list_elem_of_further].
Defined.

(** ** Bulk mark *)

Lemma elem_of_Read_entries user db id :
  id ∈ Read_entries user db ↔ is_read db (User_id user) id.
Proof.
  unfold Read_entries, is_read. rewrite list_elem_of_fmap. split.
  - intros (r & -> & Hr). apply list_elem_of_filter in Hr as [? ?]. eauto.
  - intros (r & Hr & Hu & He). exists r. rewrite list_elem_of_filter. auto.
Qed.

Lemma elem_of_Saved_entries user db id :
  id ∈ Saved_entries user db ↔ is_saved db (User_id user) id.
Proof.
  unfold Saved_entries, is_saved. rewrite list_elem_of_fmap. split.
  - intros (s & -> & Hs). apply list_elem_of_filter in Hs as [? ?]. eauto.
  - intros (s & Hs & Hu & He). exists s. rewrite list_elem_of_filter. auto.
Qed.

Lemma sql_lt_true a b : sql_lt a b = true ↔ ∃ T, a = Some T ∧ T < b.
Proof.
  destruct a as [t|]; simpl.
  - rewrite bool_decide_eq_true. split; [by exists t|].
    by intros (T & [= <-] & Hlt).
  - split; [done|]. by intros (T & [=] & _).
Qed.

(** The rows of the bulk-mark query are the candidates (some of them more
    than once). *)
Lemma elem_of_entry_list_mark_post_q user before db id :
  id ∈ Entry_id <$> entry_list_mark_post_q user before db
  ↔ mark_candidate db (User_id user) before id.
Proof.
  unfold entry_list_mark_post_q, mark_candidate.
  rewrite list_elem_of_fmap. split.
  - intros (e0 & -> & Hin).
    apply list_elem_of_bind in Hin as (e & Hin & He).
    apply list_elem_of_bind in Hin as (f & Hin & Hf).
    apply list_elem_of_bind in Hin as (s & Hin & Hs).
    apply list_elem_of_filter in Hf as [Hfe Hf].
    apply list_elem_of_filter in Hs as [Hsf Hs].
    destruct (_ && _) eqn:Hc; [|by apply elem_of_nil in Hin].
    apply list_elem_of_singleton in Hin. subst e0.
    apply andb_true_iff in Hc as [Hc Hlt]. apply andb_true_iff in Hc as [Hu Hnr].
    apply bool_decide_eq_true in Hu. apply negb_true_iff, bool_decide_eq_false in Hnr.
    apply sql_lt_true in Hlt as (T & HT & Hlt).
    rewrite elem_of_Read_entries in Hnr.
    exists e, f, s, T. by split_and!.
  - intros (e & f & s & T & He & <- & Hf & Hfe & Hs & Hsf & Hu & HT & Hlt & Hnr).
    exists e. split; [done|].
    apply list_elem_of_bind. exists e. split; [|done].
    apply list_elem_of_bind. exists f. split; [|by apply list_elem_of_filter].
    apply list_elem_of_bind. exists s. split; [|by apply list_elem_of_filter].
    rewrite bool_decide_eq_true_2 by done.
    rewrite bool_decide_eq_false_2 by (by rewrite elem_of_Read_entries).
    rewrite (proj2 (sql_lt_true _ _)) by eauto. simpl. left.
Qed.

(** The loop of [entry_list_mark_post]: every listed entry ends up read by
    the user, a repeated or already read one is skipped through its
    [IntegrityError], and only [Read] grows. *)
Lemma mark_loop now user (es : list Entry) db :
  ∃ rs,
    for_each es (λ entry,
      try_except (Read_create now user entry;; mret ()) [IntegrityError] log) db
    = (set_read (read db ++ rs) db, Ok ())
    ∧ (∀ u e, is_read (set_read (read db ++ rs) db) u e
              ↔ is_read db u e ∨ (u = User_id user ∧ e ∈ Entry_id <$> es))
    ∧ (NoDup ((λ r, (Read_user r, Read_entry r)) <$> read db) →
       NoDup ((λ r, (Read_user r, Read_entry r)) <$> (read db ++ rs))).
Proof.
  set (body := λ entry : Entry,
         try_except (Read_create now user entry;; mret ()) [IntegrityError] log).
  assert (∀ x d, is_read d (User_id user) (Entry_id x) → body x d = (d, Ok ()))
    as Hskip.
  { intros x d Hin. unfold body. run. by rewrite Read_create_present. }
  assert (∀ x d, ¬ is_read d (User_id user) (Entry_id x) →
            body x d = (set_read (read d ++ [new_Read now user x d]) d, Ok ()))
    as Hadd.
  { intros x d Hout. unfold body. run. by rewrite Read_create_absent. }
  clearbody body. revert db. induction es as [|x es IH]; intros db.
  - exists []. rewrite app_nil_r. split_and!.
    + by destruct db.
    + intros u e. rewrite fmap_nil. split; [by left|].
      intros [?|[_ Hin]]; [done|]. by apply elem_of_nil in Hin.
    + done.
  - simpl. unfold mbind, M_bind, bind.
    destruct (is_read_dec db (User_id user) (Entry_id x)) as [Hin|Hout].
    + rewrite Hskip by done.
      destruct (IH db) as (rs & Hrun & Hiff & Hnd).
      exists rs. rewrite Hrun. split_and!; [done| |done].
      intros u e. rewrite Hiff, ?fmap_cons, elem_of_cons.
      split; [intros [?|[? ?]]; auto|].
      intros [?|[-> [->|?]]]; auto.
    + rewrite Hadd by done.
      set (r := new_Read now user x db).
      destruct (IH (set_read (read db ++ [r]) db)) as (rs & Hrun & Hiff & Hnd).
      exists (r :: rs). rewrite Hrun. simpl in *.
      rewrite set_read_set_read, <- (assoc_L (++)) in *. simpl in *.
      split_and!; [done| |].
      * intros u e. rewrite Hiff. subst r. rewrite is_read_snoc.
        rewrite ?fmap_cons, elem_of_cons. split.
        -- intros [[?|[? ?]]|[? ?]]; auto.
        -- intros [?|[? [?|?]]]; auto.
      * intros Hnodup. apply Hnd.
        rewrite fmap_app. apply NoDup_app. split_and!; [done| |apply NoDup_singleton].
        intros k Hk Hk'. simpl in Hk'. apply list_elem_of_singleton in Hk'. subst k.
        apply list_elem_of_fmap in Hk as (r' & Heq & Hr'). simpl in Heq.
        apply Hout. exists r'. injection Heq as Hu He. by split_and!.
Qed.

Section bulk_mark.
Context `{Builtins}.

(** The handler, by what its [try] block gives. *)
Lemma entry_list_mark_post_unfold now user request db :
  entry_list_mark_post now (Some user) request db
  = match request_before request with
    | Raise e =>
        if decide (e ∈ [KeyError; ValueError]) then (db, Raise HTTPBadRequest)
        else (db, Raise e)
    | Ok before =>
        match for_each (entry_list_mark_post_q user before db) (λ entry,
                try_except (Read_create now user entry;; mret ())
                  [IntegrityError] log) db with
        | (db', Ok _) => (db', Ok (modal_alert_html [("unread", "")]))
        | (_, Raise e) => (db, Raise e)
        end
    end.
Proof.
  unfold request_before, entry_list_mark_post, getitem, int_, transaction. run.
  destruct (POST request !! "before") as [s|]; simpl; [|done].
  destruct (py_int s) as [n|]; simpl; [|done].
  destruct (utcfromtimestamp n) as [before|e]; simpl.
  - by destruct (for_each _ _ db) as [db' [[]|e]].
  - by destruct (decide (e ∈ [KeyError; ValueError])).
Qed.

Lemma cutoff_Some request before :
  cutoff request = Some before → request_before request = Ok before.
Proof.
  unfold cutoff, request_before, getitem, int_.
  destruct (POST request !! "before") as [s|]; simpl; [|done].
  destruct (py_int s) as [n|]; simpl; [|done].
  destruct (utcfromtimestamp n); simpl; [|done]. by intros [= ->].
Qed.

Lemma cutoff_None request :
  cutoff request = None → ∃ e, request_before request = Raise e.
Proof.
  unfold cutoff, request_before, getitem, int_.
  destruct (POST request !! "before") as [s|]; simpl; [|by eauto].
  destruct (py_int s) as [n|]; simpl; [|by eauto].
  destruct (utcfromtimestamp n); simpl; [done|by eauto].
Qed.

(** Without a cutoff the handler raises and writes nothing. *)
Lemma entry_list_mark_post_no_cutoff now user request db :
  cutoff request = None →
  (entry_list_mark_post now (Some user) request db).1 = db.
Proof.
  intros Hcut. destruct (cutoff_None request Hcut) as (e & He).
  rewrite entry_list_mark_post_unfold, He.
  by destruct (decide (e ∈ [KeyError; ValueError])).
Qed.

(** A [KeyError] or a [ValueError] in the [try] block is answered with
    [HTTPBadRequest]; any other exception leaves the handler as it is. *)
Lemma entry_list_mark_post_raise now user request db e :
  request_before request = Raise e →
  entry_list_mark_post now (Some user) request db
  = (db, Raise (if decide (e ∈ [KeyError; ValueError]) then HTTPBadRequest else e)).
Proof.
  intros He. rewrite entry_list_mark_post_unfold, He.
  by destruct (decide (e ∈ [KeyError; ValueError])).
Qed.

Lemma entry_list_mark_post_ok now user request db before :
  cutoff request = Some before →
  ∃ rs,
    entry_list_mark_post now (Some user) request db
    = (set_read (read db ++ rs) db, Ok (modal_alert_html [("unread", "")]))
    ∧ (∀ u e, is_read (set_read (read db ++ rs) db) u e
              ↔ is_read db u e
                ∨ (u = User_id user ∧ mark_candidate db (User_id user) before e))
    ∧ (NoDup ((λ r, (Read_user r, Read_entry r)) <$> read db) →
       NoDup ((λ r, (Read_user r, Read_entry r)) <$> (read db ++ rs))).
Proof.
  intros Hcut.
  destruct (mark_loop now user (entry_list_mark_post_q user before db) db)
    as (rs & Hrun & Hiff & Hnd).
  exists rs. split_and!; [|intros u e|done].
  - by rewrite entry_list_mark_post_unfold, (cutoff_Some _ _ Hcut), Hrun.
  - by rewrite Hiff, elem_of_entry_list_mark_post_q.
Qed.

End bulk_mark.

Lemma NoDup_fmap_eq {A B} (f : A → B) (l : list A) x y :
  NoDup (f <$> l) → x ∈ l → y ∈ l → f x = f y → x = y.
Proof.
  induction l as [|a l IH]; intros Hnd Hx Hy Heq.
  - by apply elem_of_nil in Hx.
  - rewrite fmap_cons in Hnd. apply NoDup_cons in Hnd as [Hnot Hnd].
    apply elem_of_cons in Hx as [->|Hx]; apply elem_of_cons in Hy as [->|Hy].
    + done.
    + exfalso. apply Hnot. rewrite Heq. by apply list_elem_of_fmap_2.
    + exfalso. apply Hnot. rewrite <- Heq. by apply list_elem_of_fmap_2.
    + by apply IH.
Qed.

(** With unique feed and entry keys, an entry whose feed has no check time
    before the cutoff is no candidate. *)
Lemma not_mark_candidate db user before f e :
  NoDup (Feed_id <$> feeds db) → NoDup (Entry_id <$> entries db) →
  f ∈ feeds db → e ∈ entries db → Entry_feed e = Feed_id f →
  (∀ T, Feed_last_checked_on f = Some T → before ≤ T) →
  ¬ mark_candidate db user before (Entry_id e).
Proof.
  intros Hfk Hek Hf He Hef Hlate
    (e' & f' & s & T & He' & Hid & Hf' & Hfe' & _ & _ & _ & HT & Hlt & _).
  assert (e' = e) as -> by by eapply (NoDup_fmap_eq Entry_id).
  assert (f' = f) as -> by (eapply (NoDup_fmap_eq Feed_id); [done..|congruence]).
  specialize (Hlate T HT). lia.
Qed.

(** Bulk mark answers [HTTPBadRequest] when [before] is missing from the
    form, or is there but is no integer, or is an integer that
    [utcfromtimestamp] refuses with [ValueError]; the store it leaves is the
    store it was given, so no [Read] row is created. *)
Lemma bulk_mark_bad_request `{Builtins} (now : datetime) (user : User)
    (request : Request) (db : DB) :
  (POST request !! "before" = None
   ∨ ∃ s, POST request !! "before" = Some s
          ∧ (py_int s = None
             ∨ ∃ n, py_int s = Some n ∧ utcfromtimestamp n = Raise ValueError)) →
  entry_list_mark_post now (Some user) request db = (db, Raise HTTPBadRequest).
Proof.
  intros Hbad.
  assert (request_before request = Raise KeyError
          ∨ request_before request = Raise ValueError) as [He|He].
  { unfold request_before, getitem, int_.
    destruct Hbad as [->|(s & -> & [->|(n & -> & ->)])]; auto. }
  - by rewrite (entry_list_mark_post_raise _ _ _ _ _ He).
  - by rewrite (entry_list_mark_post_raise _ _ _ _ _ He).
Qed.

Lemma bulk_mark_bad_request_witness :
  entry_list_mark_post (H := Sample.builtins) 77 (Some Sample.alice)
    (Sample.request [] [("before", "soon")]) Sample.db
  = (Sample.db, Raise HTTPBadRequest).
Proof.
  apply (bulk_mark_bad_request (H := Sample.builtins)).
  right. exists "soon". split; [reflexivity|]. left. reflexivity.
Defined.

(** C7. A cutoff that does not convert is not always answered with
    [HTTPBadRequest]: for [before] the decimal text of [10 ^ 400], an integer
    too large for [utcfromtimestamp], the conversion raises [OverflowError],
    which [except (KeyError, ValueError)] does not catch, and the handler
    ends with that error.  The store is unchanged. *)
Theorem bulk_mark_overflow_escapes :
  entry_list_mark_post (H := Sample.builtins) 77 (Some Sample.alice)
    (Sample.request [] [("before", Sample2.huge)]) Sample.db
  = (Sample.db, Raise OverflowError)
  ∧ (entry_list_mark_post (H := Sample.builtins) 77 (Some Sample.alice)
       (Sample.request [] [("before", Sample2.huge)]) Sample.db).2
    ≠ Raise HTTPBadRequest.
Proof.
  assert (request_before (H := Sample.builtins)
            (Sample.request [] [("before", Sample2.huge)]) = Raise OverflowError) as He
    by (vm_compute; reflexivity).
  assert (OverflowError ∉ [KeyError; ValueError]) as Hout.
  { intros Hin. repeat (apply elem_of_cons in Hin as [?|Hin]; [discriminate|]).
    by apply elem_of_nil in Hin. }
  pose proof (entry_list_mark_post_raise (H := Sample.builtins) 77 Sample.alice
                _ Sample.db _ He) as Hrun.
  rewrite (decide_False (P := OverflowError ∈ [KeyError; ValueError])) in Hrun
    by exact Hout.
  split; [exact Hrun|]. rewrite Hrun. simpl. discriminate.
Qed.

(** C1. Bulk mark with a cutoff [C] returns normally and marks exactly the
    candidates: afterwards (user', entry) is in Read iff it was there before,
    or user' is the caller and the entry is reachable through one of the
    caller's subscriptions, was not read by the caller, and sits in a feed
    whose [last_checked_on] is strictly before [C].  Hence, with unique feed
    and entry keys, no entry of a feed checked at [T >= C] changes its read
    state; every entry of a subscribed feed checked at [T < C] is read
    afterwards; what was read stays read; nothing but new [Read] rows is
    written, and the unique index on (user, entry) still holds. *)
Theorem bulk_mark_read `{Builtins} (now : datetime) (user : User)
    (request : Request) (db : DB) (C : datetime) :
  cutoff request = Some C →
  ∃ db',
    entry_list_mark_post now (Some user) request db
    = (db', Ok (modal_alert_html [("unread", "")]))
    ∧ (∀ u e, is_read db' u e
              ↔ is_read db u e
                ∨ (u = User_id user ∧ mark_candidate db (User_id user) C e))
    ∧ (∀ f T e u,
         NoDup (Feed_id <$> feeds db) → NoDup (Entry_id <$> entries db) →
         f ∈ feeds db → Feed_last_checked_on f = Some T → C ≤ T →
         e ∈ entries db → Entry_feed e = Feed_id f →
         (is_read db' u (Entry_id e) ↔ is_read db u (Entry_id e)))
    ∧ (∀ f T e s,
         f ∈ feeds db → Feed_last_checked_on f = Some T → T < C →
         e ∈ entries db → Entry_feed e = Feed_id f →
         s ∈ subscriptions db → Subscription_user s = User_id user →
         Subscription_feed s = Feed_id f →
         is_read db' (User_id user) (Entry_id e))
    ∧ (∀ u e, is_read db u e → is_read db' u e)
    ∧ (∃ rs, db' = set_read (read db ++ rs) db)
    ∧ (NoDup ((λ r, (Read_user r, Read_entry r)) <$> read db) →
       NoDup ((λ r, (Read_user r, Read_entry r)) <$> read db')).
Proof.
  intros Hcut.
  destruct (entry_list_mark_post_ok now user request db C Hcut)
    as (rs & Hrun & Hiff & Hnd).
  eexists. split; [exact Hrun|]. split_and!.
  - exact Hiff.
  - intros f T e u Hfk Hek Hf HT Hle He Hef. rewrite Hiff. split; [|by left].
    intros [?|[_ Hcand]]; [done|]. exfalso.
    eapply not_mark_candidate; [exact Hfk|exact Hek|exact Hf|exact He|exact Hef| |exact Hcand].
    intros T' HT'. rewrite HT in HT'. injection HT' as <-. done.
  - intros f T e s Hf HT Hlt He Hef Hs Hsu Hsf. apply Hiff.
    destruct (is_read_dec db (User_id user) (Entry_id e)) as [?|Hnr]; [by left|].
    right. split; [done|]. exists e, f, s, T. by split_and!.
  - intros u e Hr. apply Hiff. by left.
  - by exists rs.
  - exact Hnd.
Qed.

Lemma bulk_mark_read_witness :
  ∃ db',
    entry_list_mark_post (H := Sample.builtins) 77 (Some Sample.alice)
      (Sample.request [] [("before", "200")]) Sample.db
    = (db', Ok (modal_alert_html [("unread", "")]))
    ∧ (∀ u e, is_read db' u e
              ↔ is_read Sample.db u e
                ∨ (u = 1 ∧ mark_candidate Sample.db 1 200 e)).
Proof.
  destruct (bulk_mark_read (H := Sample.builtins) 77 Sample.alice
              (Sample.request [] [("before", "200")]) Sample.db 200)
    as (db' & Hrun & Hiff & _).
  - reflexivity.
  - exists db'. split; [exact Hrun|exact Hiff].
Defined.

(** C9. Bulk mark leaves the entries of a never-checked feed alone: with
    unique feed and entry keys, for a feed whose [last_checked_on] is null
    and every entry of it, whoever calls, with whatever request and cutoff,
    each user's Read membership of that entry is after the call what it was
    before. *)
Theorem bulk_mark_skips_unchecked_feed `{Builtins} (now : datetime)
    (self_user : option User) (request : Request) (db : DB) (f : Feed) (e : Entry) :
  NoDup (Feed_id <$> feeds db) → NoDup (Entry_id <$> entries db) →
  f ∈ feeds db → Feed_last_checked_on f = None →
  e ∈ entries db → Entry_feed e = Feed_id f →
  ∀ u, is_read (entry_list_mark_post now self_user request db).1 u (Entry_id e)
       ↔ is_read db u (Entry_id e).
Proof.
  intros Hfk Hek Hf Hnull He Hef u.
  destruct self_user as [user|]; [|done].
  destruct (cutoff request) as [C|] eqn:Hcut.
  - destruct (entry_list_mark_post_ok now user request db C Hcut)
      as (rs & Hrun & Hiff & _).
    rewrite Hrun; simpl. rewrite Hiff. split; [|by left].
    intros [?|[_ Hcand]]; [done|]. exfalso.
    eapply not_mark_candidate; [exact Hfk|exact Hek|exact Hf|exact He|exact Hef| |exact Hcand].
    intros T HT. by rewrite Hnull in HT.
  - by rewrite entry_list_mark_post_no_cutoff.
Qed.

Lemma bulk_mark_skips_unchecked_feed_witness :
  is_read (entry_list_mark_post (H := Sample.builtins) 77 (Some Sample.alice)
             (Sample.request [] [("before", "200")]) Sample.db).1 1 3
  ↔ is_read Sample.db 1 3.
Proof.
  apply (bulk_mark_skips_unchecked_feed (H := Sample.builtins) 77 (Some Sample.alice)
           (Sample.request [] [("before", "200")]) Sample.db
           (Sample.feed 2 None) (Sample.item 3 2 30)).
  - apply (bool_decide_unpack _). vm_compute. exact I.
  - apply (bool_decide_unpack _). vm_compute. exact I.
  - unfold Sample.db; simpl. repeat first [apply list_elem_of_here|apply list_elem_of_further].
  - reflexivity.
  - unfold Sample.db; simpl. repeat first [apply list_elem_of_here|apply list_elem_of_further].
  - reflexivity.
Defined.

(** ** The entry queries *)

Lemma elem_of_joined db j :
  j ∈ joined db
  ↔ j_entry j ∈ entries db
    ∧ j_feed j ∈ feeds db ∧ Feed_id (j_feed j) = Entry_feed (j_entry j)
    ∧ j_icon j ∈ icons db ∧ Icon_id (j_icon j) = Feed_icon (j_feed j)
    ∧ j_subscription j ∈ subscriptions db
    ∧ Subscription_feed (j_subscription j) = Feed_id (j_feed j).
Proof.
  unfold joined. split.
  - intros Hin.
    apply list_elem_of_bind in Hin as (e & Hin & He).
    apply list_elem_of_bind in Hin as (f & Hin & Hf).
    apply list_elem_of_bind in Hin as (i & Hin & Hi).
    apply list_elem_of_bind in Hin as (s & Hin & Hs).
    apply list_elem_of_singleton in Hin. subst j. simpl.
    apply list_elem_of_filter in Hf as [? ?].
    apply list_elem_of_filter in Hi as [? ?].
    apply list_elem_of_filter in Hs as [? ?]. done.
  - destruct j as [e f i s]; simpl. intros (He & Hf & Hfe & Hi & Hif & Hs & Hsf).
    apply list_elem_of_bind. exists e. split; [|done].
    apply list_elem_of_bind. exists f. split; [|by apply list_elem_of_filter].
    apply list_elem_of_bind. exists i. split; [|by apply list_elem_of_filter].
    apply list_elem_of_bind. exists s. split; [|by apply list_elem_of_filter].
    left.
Qed.

Lemma rows_sublist db q : rows db q `sublist_of` unpaged_rows db q.
Proof.
  unfold rows.
  destruct (q_limit q), (q_offset q); try done.
  - etrans; [apply sublist_take|apply sublist_drop].
  - apply sublist_take.
  - apply sublist_drop.
Qed.

Lemma elem_of_unpaged_rows db q x :
  x ∈ unpaged_rows db q
  ↔ ∃ j, j ∈ joined db ∧ q_where q db j ∧ x = project (q_select q) j.
Proof.
  unfold unpaged_rows; simpl.
  assert (x ∈ project (q_select q) <$>
                match q_order_by q with
                | Some o => merge_sort (order_rel o) (filter (λ j, q_where q db j) (joined db))
                | None => filter (λ j, q_where q db j) (joined db)
                end
          ↔ ∃ j, j ∈ joined db ∧ q_where q db j ∧ x = project (q_select q) j) as Hbase.
  { rewrite list_elem_of_fmap. destruct (q_order_by q) as [o|].
    - setoid_rewrite (merge_sort_Permutation (order_rel o)).
      setoid_rewrite list_elem_of_filter.
      split; [intros (j & -> & Hw & Hj)|intros (j & Hj & Hw & ->)]; eauto.
    - setoid_rewrite list_elem_of_filter.
      split; [intros (j & -> & Hw & Hj)|intros (j & Hj & Hw & ->)]; eauto. }
  destruct (q_distinct q); [by rewrite elem_of_remove_dups|done].
Qed.

Lemma elem_of_rows db q x :
  x ∈ rows db q → ∃ j, j ∈ joined db ∧ q_where q db j ∧ x = project (q_select q) j.
Proof.
  intros Hx. apply elem_of_unpaged_rows.
  eapply elem_of_sublist; [done|apply rows_sublist].
Qed.

Lemma Row_entry_id_project sel j : Row_entry_id (project sel j) = Entry_id (j_entry j).
Proof. by destruct sel. Qed.

(** With unique keys the entry key fixes the entry, feed and icon of a
    joined row, hence the row a query shows for it. *)
Lemma joined_same_entry db j1 j2 :
  unique_keys db → j1 ∈ joined db → j2 ∈ joined db →
  Entry_id (j_entry j1) = Entry_id (j_entry j2) →
  j_entry j1 = j_entry j2 ∧ j_feed j1 = j_feed j2 ∧ j_icon j1 = j_icon j2.
Proof.
  intros Huk Hj1 Hj2 Hid.
  apply elem_of_joined in Hj1 as (He1 & Hf1 & Hfe1 & Hi1 & Hif1 & _).
  apply elem_of_joined in Hj2 as (He2 & Hf2 & Hfe2 & Hi2 & Hif2 & _).
  assert (j_entry j1 = j_entry j2) as Hee
    by (eapply (NoDup_fmap_eq Entry_id); [apply Huk|done..]).
  assert (j_feed j1 = j_feed j2) as Hff
    by (eapply (NoDup_fmap_eq Feed_id); [apply Huk|done..|congruence]).
  assert (j_icon j1 = j_icon j2) as Hii
    by (eapply (NoDup_fmap_eq Icon_id); [apply Huk|done..|congruence]).
  done.
Qed.

Lemma project_same_entry db sel j1 j2 :
  unique_keys db → j1 ∈ joined db → j2 ∈ joined db →
  Entry_id (j_entry j1) = Entry_id (j_entry j2) →
  project sel j1 = project sel j2.
Proof.
  intros Huk Hj1 Hj2 Hid.
  destruct (joined_same_entry db j1 j2) as (He & Hf & Hi); [done..|].
  destruct sel; simpl; congruence.
Qed.

Lemma elem_of_ids_rows db q id :
  q_offset q = None → q_limit q = None →
  id ∈ ids (rows db q)
  ↔ ∃ j, j ∈ joined db ∧ q_where q db j ∧ Entry_id (j_entry j) = id.
Proof.
  intros Hoff Hlim. unfold ids, rows. rewrite Hoff, Hlim.
  rewrite list_elem_of_fmap. setoid_rewrite elem_of_unpaged_rows. split.
  - intros (x & -> & j & Hj & Hw & ->). rewrite Row_entry_id_project. eauto.
  - intros (j & Hj & Hw & <-). exists (project (q_select q) j).
    rewrite Row_entry_id_project. eauto.
Qed.

(** Reachability is what the join of [_q] computes, given the icons the
    feeds point to. *)
Lemma reachable_joined db user id :
  feed_icons_exist db →
  reachable db user id
  ↔ ∃ j, j ∈ joined db ∧ Subscription_user (j_subscription j) = user
         ∧ Entry_id (j_entry j) = id.
Proof.
  intros Hfk. unfold reachable. split.
  - intros (e & f & s & He & Hid & Hf & Hfe & Hs & Hsf & Hsu).
    destruct (Hfk f Hf) as (i & Hi & Hif).
    exists {| j_entry := e; j_feed := f; j_icon := i; j_subscription := s |}.
    rewrite elem_of_joined. simpl. by split_and!.
  - intros (j & Hj & Hu & Hid).
    apply elem_of_joined in Hj as (He & Hf & Hfe & _ & _ & Hs & Hsf).
    exists (j_entry j), (j_feed j), (j_subscription j). by split_and!.
Qed.

(** Without that assumption the join reaches the entries of feeds that have
    their icon row. *)
Lemma reachable_with_icon_joined db user id :
  reachable_with_icon db user id
  ↔ ∃ j, j ∈ joined db ∧ Subscription_user (j_subscription j) = user
         ∧ Entry_id (j_entry j) = id.
Proof.
  unfold reachable_with_icon. split.
  - intros (e & f & i & s & He & Hid & Hf & Hfe & Hi & Hif & Hs & Hsf & Hsu).
    exists {| j_entry := e; j_feed := f; j_icon := i; j_subscription := s |}.
    rewrite elem_of_joined. simpl. by split_and!.
  - intros (j & Hj & Hu & Hid).
    apply elem_of_joined in Hj as (He & Hf & Hfe & Hi & Hif & Hs & Hsf).
    exists (j_entry j), (j_feed j), (j_icon j), (j_subscription j). by split_and!.
Qed.

Lemma reachable_with_icon_reachable db user id :
  reachable_with_icon db user id → reachable db user id.
Proof.
  intros (e & f & i & s & He & Hid & Hf & Hfe & _ & _ & Hs & Hsf & Hsu).
  exists e, f, s. by split_and!.
Qed.

Lemma is_read_delete db user entry u e :
  is_read (set_read (filter (λ r, ¬ Read_matches user entry r) (read db)) db) u e
  ↔ is_read db u e ∧ ¬ (u = user ∧ e = entry).
Proof.
  unfold is_read, Read_matches; simpl. split.
  - intros (r & Hr & Hu & He). apply list_elem_of_filter in Hr as [Hno Hr].
    split; [eauto|]. intros [-> ->]. by apply Hno.
  - intros [(r & Hr & Hu & He) Hne]. exists r. split; [|done].
    apply list_elem_of_filter. split; [|done]. intros [? ?]. apply Hne. by subst.
Qed.

Lemma unread_view_ids user sel db id :
  feed_icons_exist db →
  id ∈ ids (rows db (get_unread_entries user sel))
  ↔ reachable db (User_id user) id ∧ ¬ is_read db (User_id user) id.
Proof.
  intros Hfk. rewrite elem_of_ids_rows by done. rewrite reachable_joined by done.
  unfold get_unread_entries, Subscription_user_is; simpl. split.
  - intros (j & Hj & Hw & Hid).
    apply andb_prop_elim in Hw as [Hu Hnr].
    apply bool_decide_unpack in Hu. apply negb_prop_elim in Hnr.
    rewrite bool_decide_spec, elem_of_Read_entries, Hid in Hnr. eauto.
  - intros [(j & Hj & Hu & Hid) Hnr]. exists j. split; [done|]. split; [|done].
    apply andb_prop_intro. split; [by apply bool_decide_pack|].
    apply negb_prop_intro. rewrite bool_decide_spec, elem_of_Read_entries, Hid. done.
Qed.

(** The Unread view, with no assumption on the store: [_q] joins [Icon], so
    what the view shows of an unread entry is the entry of a feed that has
    its icon row. *)
Lemma unread_view_rows user sel db id :
  id ∈ ids (rows db (get_unread_entries user sel))
  ↔ reachable_with_icon db (User_id user) id ∧ ¬ is_read db (User_id user) id.
Proof.
  rewrite elem_of_ids_rows by done. rewrite reachable_with_icon_joined.
  unfold get_unread_entries, Subscription_user_is; simpl. split.
  - intros (j & Hj & Hw & Hid).
    apply andb_prop_elim in Hw as [Hu Hnr].
    apply bool_decide_unpack in Hu. apply negb_prop_elim in Hnr.
    rewrite bool_decide_spec, elem_of_Read_entries, Hid in Hnr. eauto.
  - intros [(j & Hj & Hu & Hid) Hnr]. exists j. split; [done|]. split; [|done].
    apply andb_prop_intro. split; [by apply bool_decide_pack|].
    apply negb_prop_intro. rewrite bool_decide_spec, elem_of_Read_entries, Hid. done.
Qed.





(** Given the icon rows the feeds point to, every reachable entry is reached
    by the join, and the Unread view reads as the entries reachable through
    the user's subscriptions that are not in Read for the user. *)
Lemma unread_view_intact_icons (user : User) (sel : Select) (db : DB) :
  feed_icons_exist db →
  ∀ id, id ∈ ids (rows db (get_unread_entries user sel))
        ↔ reachable db (User_id user) id ∧ ¬ is_read db (User_id user) id.
Proof. intros Hfk id. by apply unread_view_ids. Qed.

(** ** The entry list *)

Section entry_list.
Context `{Builtins}.

Lemma entry_list_unfold user request db :
  entry_list (Some user) request db
  = match _make_view_variables user request db with
    | (db', Ok (q, ns)) =>
        match request_offset request with
        | Ok offset =>
            (db', Ok (entries_html ns (rows db' (page offset q))
                        (offset + Z.of_nat ENTRIES_PER_PAGE)
                        (GET request !! "prev_date")))
        | Raise e => (db', Raise e)
        end
    | (db', Raise e) => (db', Raise e)
    end.
Proof.
  unfold entry_list. run.
  destruct (_make_view_variables user request db) as [db' [[q ns]|e]]; [|done].
  by destruct (request_offset request).
Qed.

(** What [_make_view_variables] returns when it returns: one of the five
    views with the default columns, and as [count] the count of the same
    view over [Entry.id]. *)
Lemma make_view_variables_inv user request db db' q ns :
  _make_view_variables user request db = (db', Ok (q, ns)) →
  db' = db
  ∧ ∃ X, is_view user X ∧ q = X Select_default
         ∧ ns_count ns = Query_count db (X Select_Entry_id).
Proof.
  intros Hrun. split.
  { pose proof (make_view_variables_db user request db) as Hdb.
    by rewrite Hrun in Hdb. }
  revert Hrun. unfold _make_view_variables. run.
  destruct (GET request !! "saved").
  { intros [= <- <- <-]. eexists. split; [apply view_saved|done]. }
  destruct (GET request !! "group") as [g|].
  { destruct (int_ g) as [gid|]; [|done].
    pose proof (Group_get_db gid db) as Hg.
    destruct (Group_get gid db) as [db1 [grp|]]; simpl in *; [|done].
    subst. intros [= <- <- <-]. eexists. split; [apply (view_group _ grp)|done]. }
  destruct (GET request !! "feed") as [f|].
  { destruct (int_ f) as [fid|]; [|done].
    pose proof (Feed_get_db fid db) as Hf.
    destruct (Feed_get fid db) as [db1 [fd|]]; simpl in *; [|done].
    subst. intros [= <- <- <-]. eexists. split; [apply (view_feed _ fd)|done]. }
  destruct (GET request !! "all").
  { intros [= <- <- <-]. eexists. split; [apply view_all|done]. }
  intros [= <- <- <-]. eexists. split; [apply view_unread|done].
Qed.

(** The [offset] key plays no part in the choice of the view. *)
Lemma make_view_variables_with_offset s user request db :
  _make_view_variables user (with_offset s request) db
  = _make_view_variables user request db.
Proof.
  unfold _make_view_variables, with_offset; simpl.
  by rewrite !lookup_insert_ne by done.
Qed.

Lemma request_offset_with_offset s n request :
  py_int s = Some n → request_offset (with_offset s request) = Ok n.
Proof.
  intros Hs. unfold request_offset, with_offset, int_; simpl.
  by rewrite lookup_insert_eq, Hs.
Qed.

(** The Feed view, when the feed exists. *)
Lemma make_view_variables_feed user request db f feed :
  GET request !! "saved" = None → GET request !! "group" = None →
  GET request !! "feed" = Some f → py_int f = Some (Feed_id feed) →
  feed ∈ feeds db →
  ∃ fd ns, Feed_id fd = Feed_id feed
           ∧ _make_view_variables user request db
             = (db, Ok (get_feed_entries user fd Select_default, ns))
           ∧ ns_count ns = Query_count db (get_feed_entries user fd Select_Entry_id).
Proof.
  intros Hs Hg Hf Hint Hfeed.
  destruct (Feed_get_found (Feed_id feed) db) as (fd & Hget & _ & Hid); [by eauto|].
  exists fd. eexists. split; [done|].
  unfold _make_view_variables, int_. run.
  rewrite Hs, Hg, Hf, Hint, Hget. done.
Qed.

End entry_list.

Lemma rows_nil db q :
  (∀ j, j ∈ joined db → ¬ q_where q db j) → rows db q = [].
Proof.
  intros Hno. apply elem_of_nil_inv. intros x Hx.
  apply elem_of_rows in Hx as (j & Hj & Hw & _). by apply (Hno j).
Qed.

Lemma feed_view_rows_nil user feed sel db :
  (∀ s, s ∈ subscriptions db → Subscription_user s = User_id user →
        Subscription_feed s ≠ Feed_id feed) →
  rows db (get_feed_entries user feed sel) = []
  ∧ ∀ offset, rows db (page offset (get_feed_entries user feed sel)) = [].
Proof.
  intros Hno.
  assert (∀ j, j ∈ joined db → ¬ q_where (get_feed_entries user feed sel) db j) as Hw.
  { intros j Hj Hw. apply elem_of_joined in Hj as (_ & _ & _ & _ & _ & Hs & _).
    unfold get_feed_entries, Subscription_user_is in Hw; simpl in Hw.
    apply andb_prop_elim in Hw as [Hu Hf].
    apply bool_decide_unpack in Hu, Hf. by apply (Hno (j_subscription j)). }
  split; [|intros offset]; by apply rows_nil.
Qed.

(** C6. For a user who holds no subscription to a feed, the Feed view of
    that feed is empty and answers normally: the query yields no row and
    counts zero, and [GET /entries?feed=<id>] for an existing feed returns
    the entries page with no entries and [count] zero, not an error. *)
Theorem feed_view_unsubscribed `{Builtins} (user : User) (feed : Feed) (db : DB) :
  feed ∈ feeds db →
  (∀ s, s ∈ subscriptions db → Subscription_user s = User_id user →
        Subscription_feed s ≠ Feed_id feed) →
  (∀ sel, rows db (get_feed_entries user feed sel) = []
          ∧ Query_count db (get_feed_entries user feed sel) = 0%nat)
  ∧ (∀ request f offset,
       GET request !! "saved" = None → GET request !! "group" = None →
       GET request !! "feed" = Some f → py_int f = Some (Feed_id feed) →
       request_offset request = Ok offset →
       ∃ ns, entry_list (Some user) request db
             = (db, Ok (entries_html ns [] (offset + 30) (GET request !! "prev_date")))
             ∧ ns_count ns = 0%nat ∧ ns_feed_id ns = Feed_id feed).
Proof.
  intros Hfeed Hno. split.
  - intros sel. unfold Query_count.
    by rewrite (proj1 (feed_view_rows_nil user feed sel db Hno)).
  - intros request f offset Hs Hg Hf Hint Hoff.
    destruct (make_view_variables_feed user request db f feed)
      as (fd & ns & Hid & Hrun & Hcount); [done..|].
    assert (∀ s, s ∈ subscriptions db → Subscription_user s = User_id user →
                 Subscription_feed s ≠ Feed_id fd) as Hno'
      by (by rewrite Hid).
    exists ns. rewrite entry_list_unfold, Hrun, Hoff.
    rewrite (proj2 (feed_view_rows_nil user fd Select_default db Hno')). split_and!.
    + done.
    + rewrite Hcount. unfold Query_count.
      by rewrite (proj1 (feed_view_rows_nil user fd Select_Entry_id db Hno')).
    + revert Hrun. unfold _make_view_variables, int_. run.
      rewrite Hs, Hg, Hf, Hint.
      destruct (Feed_get (Feed_id feed) db) as [db1 [fd1|]]; [|done].
      by intros [= _ _ <-].
Qed.

Lemma feed_view_unsubscribed_witness :
  ∃ ns, entry_list (H := Sample.builtins) (Some Sample.bob)
          (Sample.request [("feed", "1")] []) Sample.db
        = (Sample.db, Ok (entries_html ns [] 30 None))
        ∧ ns_count ns = 0%nat ∧ ns_feed_id ns = 1.
Proof.
  assert (∀ s, s ∈ subscriptions Sample.db → Subscription_user s = User_id Sample.bob →
               Subscription_feed s ≠ Feed_id (Sample.feed 1 (Some 100))) as Hno.
  { intros s Hs Hu. unfold Sample.db in Hs; simpl in Hs.
    repeat (apply elem_of_cons in Hs as [->|Hs]); simpl in *;
      try discriminate. by apply elem_of_nil in Hs. }
  apply (proj2 (feed_view_unsubscribed (H := Sample.builtins) Sample.bob
                  (Sample.feed 1 (Some 100)) Sample.db
                  ltac:(apply list_elem_of_here) Hno)
           (Sample.request [("feed", "1")] []) "1" 0);
    reflexivity.
Defined.

(** ** Duplicate-free views *)

Lemma NoDup_bind_tag {A B} (g : B → A) (f : A → list B) (l : list A) :
  (∀ x y, y ∈ f x → g y = x) →
  (∀ x, x ∈ l → NoDup (f x)) → NoDup l → NoDup (l ≫= f).
Proof.
  intros Hg Hf Hl. apply NoDup_bind; [|done..].
  intros x1 x2 y _ _ H1 H2. by rewrite <- (Hg x1 y H1), <- (Hg x2 y H2).
Qed.

Ltac unbind H :=
  repeat (let x := fresh in let Hx := fresh in
          apply list_elem_of_bind in H as (x & H & Hx));
  apply list_elem_of_singleton in H; subst; done.

(** The join has no repeated row when the tables have none. *)
Lemma NoDup_joined db : unique_keys db → NoDup (joined db).
Proof.
  intros Huk. unfold joined.
  apply (NoDup_bind_tag j_entry); [intros e y Hy; unbind Hy| |].
  2: { eapply NoDup_fmap_1, Huk. }
  intros e _.
  apply (NoDup_bind_tag j_feed); [intros f y Hy; unbind Hy| |].
  2: { apply NoDup_filter. eapply NoDup_fmap_1, Huk. }
  intros f _.
  apply (NoDup_bind_tag j_icon); [intros i y Hy; unbind Hy| |].
  2: { apply NoDup_filter. eapply NoDup_fmap_1, Huk. }
  intros i _.
  apply (NoDup_bind_tag j_subscription); [intros s y Hy; unbind Hy| |].
  2: { apply NoDup_filter. eapply NoDup_fmap_1, Huk. }
  intros s _. apply NoDup_singleton.
Qed.

(** Rows without repetition show no entry twice. *)
Lemma NoDup_ids_rows db q :
  unique_keys db → NoDup (rows db q) → NoDup (ids (rows db q)).
Proof.
  intros Huk Hnd. unfold ids. apply NoDup_fmap_2_strong; [|done].
  intros x y Hx Hy Hid.
  apply elem_of_rows in Hx as (j1 & Hj1 & _ & ->).
  apply elem_of_rows in Hy as (j2 & Hj2 & _ & ->).
  rewrite !Row_entry_id_project in Hid. by eapply project_same_entry.
Qed.

Lemma NoDup_rows_distinct db q : q_distinct q = true → NoDup (rows db q).
Proof.
  intros Hd. eapply sublist_NoDup; [|apply rows_sublist].
  unfold unpaged_rows. rewrite Hd. apply NoDup_remove_dups.
Qed.

(** Without [distinct], when the filter lets at most one joined row per
    entry through. *)
Lemma NoDup_rows_where db q :
  unique_keys db →
  (∀ j1 j2, j1 ∈ joined db → j2 ∈ joined db →
            q_where q db j1 → q_where q db j2 →
            Entry_id (j_entry j1) = Entry_id (j_entry j2) → j1 = j2) →
  NoDup (rows db q).
Proof.
  intros Huk Hone. eapply sublist_NoDup; [|apply rows_sublist].
  unfold unpaged_rows.
  set (js := filter (λ j, q_where q db j) (joined db)).
  assert (NoDup js) as Hjs by apply NoDup_filter, NoDup_joined, Huk.
  assert (∀ js', js' ≡ₚ js → NoDup (project (q_select q) <$> js')) as Hproj.
  { intros js' Hperm. apply NoDup_fmap_2_strong; [|by rewrite Hperm].
    intros j1 j2 Hj1 Hj2 Hp. rewrite Hperm in Hj1, Hj2.
    apply list_elem_of_filter in Hj1 as [Hw1 Hj1].
    apply list_elem_of_filter in Hj2 as [Hw2 Hj2].
    apply Hone; [done..|].
    by rewrite <- !(Row_entry_id_project (q_select q)), Hp. }
  destruct (q_distinct q); [apply NoDup_remove_dups|].
  destruct (q_order_by q) as [o|]; apply Hproj; [apply merge_sort_Permutation|done].
Qed.

(** A user has one subscription per group and feed, so the Group filter
    lets one joined row per entry through. *)
Lemma group_where_one db user group sel j1 j2 :
  unique_keys db → j1 ∈ joined db → j2 ∈ joined db →
  q_where (get_group_entries user group sel) db j1 →
  q_where (get_group_entries user group sel) db j2 →
  Entry_id (j_entry j1) = Entry_id (j_entry j2) → j1 = j2.
Proof.
  intros Huk Hj1 Hj2 Hw1 Hw2 Hid.
  destruct (joined_same_entry db j1 j2) as (He & Hf & Hi); [done..|].
  unfold get_group_entries, Subscription_user_is in Hw1, Hw2; simpl in Hw1, Hw2.
  apply andb_prop_elim in Hw1 as [Hu1 Hg1]. apply andb_prop_elim in Hw2 as [Hu2 Hg2].
  apply bool_decide_unpack in Hu1, Hg1, Hu2, Hg2.
  apply elem_of_joined in Hj1 as (_ & _ & _ & _ & _ & Hs1 & Hsf1).
  apply elem_of_joined in Hj2 as (_ & _ & _ & _ & _ & Hs2 & Hsf2).
  assert (j_subscription j1 = j_subscription j2) as Hs.
  { eapply (NoDup_fmap_eq
              (λ s, (Subscription_user s, Subscription_group s, Subscription_feed s)));
      [apply Huk|done..|]. simpl. congruence. }
  destruct j1, j2; simpl in *; congruence.
Qed.

Lemma NoDup_view db user X sel :
  unique_keys db → is_view user X →
  NoDup (ids (rows db (X sel))) ∧ ∀ offset, NoDup (ids (rows db (page offset (X sel)))).
Proof.
  intros Huk HX.
  split; [|intros offset]; apply NoDup_ids_rows; try done;
    destruct HX; try (by apply NoDup_rows_distinct);
    apply NoDup_rows_where; try done;
    intros j1 j2; by apply group_where_one.
Qed.

(** The bare join of a user with two subscriptions to one feed does show
    the feed's entries twice. *)
Example joined_rows_repeat :
  ids (rows Sample.db (Query_where (Subscription_user_is Sample.alice) (_q Select_default)))
  = [1; 1; 2; 2; 3; 4].
Proof. reflexivity. Qed.

(** C2. With the keys of the schema unique (primary keys, one subscription
    per user, group and feed), no view shows an entry twice: the Unread,
    Saved, All, Group and Feed queries, whole or as a page, over the default
    columns or over [Entry.id], yield each entry id at most once, also for a
    user who reaches a feed through several groups.  This includes the Group
    query, which has no [distinct]; and the entries page of [GET /entries]
    has no repeated entry, whatever the filter. *)
Theorem views_duplicate_free `{Builtins} (user : User) (db : DB) :
  unique_keys db →
  (∀ sel, NoDup (ids (rows db (get_unread_entries user sel))))
  ∧ (∀ sel, NoDup (ids (rows db (get_saved_entries user sel))))
  ∧ (∀ sel, NoDup (ids (rows db (get_all_entries user sel))))
  ∧ (∀ group sel, q_distinct (get_group_entries user group sel) = false
                  ∧ NoDup (ids (rows db (get_group_entries user group sel))))
  ∧ (∀ feed sel, NoDup (ids (rows db (get_feed_entries user feed sel))))
  ∧ (∀ X sel offset, is_view user X → NoDup (ids (rows db (page offset (X sel)))))
  ∧ (∀ request db' ns es offset prev_date,
       entry_list (Some user) request db
       = (db', Ok (entries_html ns es offset prev_date)) →
       NoDup (ids es)).
Proof.
  intros Huk. split_and!.
  - intros sel. by apply (NoDup_view db user _ sel Huk (view_unread user)).
  - intros sel. by apply (NoDup_view db user _ sel Huk (view_saved user)).
  - intros sel. by apply (NoDup_view db user _ sel Huk (view_all user)).
  - intros group sel. split; [done|].
    by apply (NoDup_view db user _ sel Huk (view_group user group)).
  - intros feed sel. by apply (NoDup_view db user _ sel Huk (view_feed user feed)).
  - intros X sel offset HX. by apply (NoDup_view db user X sel Huk HX).
  - intros request db' ns es offset prev_date. rewrite entry_list_unfold.
    destruct (_make_view_variables user request db) as [db1 [[q ns1]|e]] eqn:Hrun;
      [|done].
    apply make_view_variables_inv in Hrun as (-> & X & HX & -> & _).
    destruct (request_offset request) as [off|]; [|done].
    intros [= <- <- <- <- <-]. by apply (NoDup_view db user X _ Huk HX).
Qed.

Lemma Sample_unique_keys : unique_keys Sample.db.
Proof. split; apply (bool_decide_unpack _); vm_compute; exact I. Qed.

Lemma views_duplicate_free_witness :
  NoDup (ids (rows Sample.db
                (get_all_entries Sample.alice Select_default)))
  ∧ NoDup (ids (rows Sample.db
                  (get_group_entries Sample.alice
                     {| Group_id := 1; Group_title := "Default" |} Select_default))).
Proof.
  destruct (views_duplicate_free (H := Sample.builtins) Sample.alice Sample.db
              Sample_unique_keys) as (_ & _ & Hall & Hgroup & _).
  split; [apply Hall|apply Hgroup].
Defined.

(** ** Pagination *)

Lemma rows_page db q offset :
  q_offset q = None → q_limit q = None →
  rows db (page offset q)
  = take ENTRIES_PER_PAGE
      (drop (Z.to_nat offset) (rows db (Query_order_by Entry_last_updated_on_desc q))).
Proof. intros Hoff Hlim. unfold rows; simpl. by rewrite Hoff, Hlim. Qed.

Lemma is_view_unpaged user X sel :
  is_view user X → q_offset (X sel) = None ∧ q_limit (X sel) = None.
Proof. by intros []. Qed.

Lemma is_view_where user X sel sel' db j :
  is_view user X → q_where (X sel) db j = q_where (X sel') db j.
Proof. by intros []. Qed.

Lemma NoDup_rows_view db user X sel :
  unique_keys db → is_view user X →
  NoDup (rows db (X sel))
  ∧ NoDup (rows db (Query_order_by Entry_last_updated_on_desc (X sel))).
Proof.
  intros Huk HX.
  split; destruct HX; try (by apply NoDup_rows_distinct);
    apply NoDup_rows_where; try done;
    intros j1 j2; by apply group_where_one.
Qed.

(** Two unpaged queries with the same filter count the same, once neither
    repeats a row. *)
Lemma length_rows_same db q1 q2 :
  unique_keys db →
  q_offset q1 = None → q_limit q1 = None → q_offset q2 = None → q_limit q2 = None →
  NoDup (rows db q1) → NoDup (rows db q2) →
  (∀ j, q_where q1 db j = q_where q2 db j) →
  length (rows db q1) = length (rows db q2).
Proof.
  intros Huk Ho1 Hl1 Ho2 Hl2 Hn1 Hn2 Hw.
  rewrite <- (length_fmap Row_entry_id (rows db q1)).
  rewrite <- (length_fmap Row_entry_id (rows db q2)).
  apply Permutation_length, NoDup_Permutation.
  - by apply NoDup_ids_rows.
  - by apply NoDup_ids_rows.
  - intros id. fold (ids (rows db q1)). fold (ids (rows db q2)).
    rewrite !elem_of_ids_rows by done. by setoid_rewrite Hw.
Qed.

(** The [count] of a view is the length of its ordered result. *)
Lemma count_view db user X :
  unique_keys db → is_view user X →
  Query_count db (X Select_Entry_id)
  = length (rows db (Query_order_by Entry_last_updated_on_desc (X Select_default))).
Proof.
  intros Huk HX. unfold Query_count.
  destruct (is_view_unpaged user X Select_Entry_id HX) as [Ho1 Hl1].
  destruct (is_view_unpaged user X Select_default HX) as [Ho2 Hl2].
  apply length_rows_same; try done.
  - by apply (NoDup_rows_view db user X).
  - by apply (NoDup_rows_view db user X).
  - intros j. simpl. by apply (is_view_where user).
Qed.

(** C8. With the keys of the schema unique and the store the same for both
    calls: when the filter of a request matches 45 entries ([count] is 45),
    [GET /entries] with [offset=0] returns 30 entries and reports 30 as the
    next offset, and with [offset=30] returns 15 entries and reports 60; the
    two pages one after the other are the whole ordered result of the
    filter, 45 rows, and no entry id occurs twice in them: no overlap and no
    omission. *)
Theorem pagination_45 `{Builtins} (user : User) (request : Request) (db : DB)
    (s0 s30 : string) (q : Query) (ns : ViewVariables) :
  unique_keys db →
  py_int s0 = Some 0 → py_int s30 = Some 30 →
  _make_view_variables user request db = (db, Ok (q, ns)) →
  ns_count ns = 45%nat →
  ∃ p1 p2,
    entry_list (Some user) (with_offset s0 request) db
    = (db, Ok (entries_html ns p1 (0 + 30) (GET request !! "prev_date")))
    ∧ entry_list (Some user) (with_offset s30 request) db
      = (db, Ok (entries_html ns p2 (30 + 30) (GET request !! "prev_date")))
    ∧ length p1 = 30%nat ∧ length p2 = 15%nat
    ∧ p1 ++ p2 = rows db (Query_order_by Entry_last_updated_on_desc q)
    ∧ length (p1 ++ p2) = 45%nat
    ∧ NoDup (ids (p1 ++ p2)).
Proof.
  intros Huk H0 H30 Hrun Hcount.
  destruct (make_view_variables_inv _ _ _ _ _ _ Hrun) as (_ & X & HX & -> & Hc).
  destruct (is_view_unpaged user X Select_default HX) as [Hoff Hlim].
  set (full := rows db (Query_order_by Entry_last_updated_on_desc (X Select_default))).
  assert (length full = 45%nat) as Hlen
    by (by rewrite <- Hcount, Hc; symmetry; apply (count_view db user)).
  assert (∀ s, GET (with_offset s request) !! "prev_date" = GET request !! "prev_date")
    as Hpd by (intros s; by apply lookup_insert_ne).
  exists (take 30 full), (drop 30 full). split_and!.
  - rewrite entry_list_unfold, make_view_variables_with_offset, Hrun.
    rewrite (request_offset_with_offset s0 0) by done.
    by rewrite rows_page, Hpd.
  - rewrite entry_list_unfold, make_view_variables_with_offset, Hrun.
    rewrite (request_offset_with_offset s30 30) by done.
    rewrite rows_page, Hpd by done. fold full.
    replace (Z.to_nat 30) with 30%nat by done. unfold ENTRIES_PER_PAGE.
    rewrite (take_ge (drop 30 full)); [done|]. rewrite length_drop. lia.
  - rewrite length_take. lia.
  - rewrite length_drop. lia.
  - apply take_drop.
  - by rewrite take_drop.
  - rewrite take_drop. apply NoDup_ids_rows; [done|].
    by apply (NoDup_rows_view db user X).
Qed.

Lemma Sample_unique_keys45 : unique_keys Sample.db45.
Proof. split; apply (bool_decide_unpack _); vm_compute; exact I. Qed.

Lemma pagination_45_witness :
  ∃ ns p1 p2,
    entry_list (H := Sample.builtins) (Some Sample.alice)
      (with_offset "0" (Sample.request [("group", "1")] [])) Sample.db45
    = (Sample.db45, Ok (entries_html ns p1 30 None))
    ∧ entry_list (H := Sample.builtins) (Some Sample.alice)
        (with_offset "30" (Sample.request [("group", "1")] [])) Sample.db45
      = (Sample.db45, Ok (entries_html ns p2 60 None))
    ∧ length p1 = 30%nat ∧ length p2 = 15%nat ∧ NoDup (ids (p1 ++ p2)).
Proof.
  destruct (pagination_45 (H := Sample.builtins) Sample.alice
              (Sample.request [("group", "1")] []) Sample.db45 "0" "30"
              (get_group_entries Sample.alice
                 {| Group_id := 1; Group_title := "Default" |} Select_default)
              {| ns_count := 45; ns_group_id := 1; ns_feed_id := 0;
                 ns_filter_class := ""; ns_read_ids := ∅; ns_saved_ids := ∅ |})
    as (p1 & p2 & Hp1 & Hp2 & Hl1 & Hl2 & _ & _ & Hnd).
  - exact Sample_unique_keys45.
  - reflexivity.
  - reflexivity.
  - vm_compute. reflexivity.
  - reflexivity.
  - eexists _, p1, p2. split_and!; [exact Hp1|exact Hp2|exact Hl1|exact Hl2|exact Hnd].
Defined.

(** ** A group that does not exist *)

Section missing_rows.
Context `{Builtins}.

(** [entry] and [entry_post] guard their lookup: a missing entry is
    answered with [HTTPNotFound]. *)
Lemma entry_missing now user request entry_id db :
  fits_int64 entry_id →
  (∀ e, e ∈ entries db → Entry_id e ≠ entry_id) →
  entry now (Some user) request entry_id db = (db, Raise HTTPNotFound).
Proof.
  intros Hfit Hno. unfold entry. run.
  by rewrite (Entry_get_missing entry_id db Hfit Hno).
Qed.

(** The Group filter does not: the [Group.DoesNotExist] of [Group.get]
    leaves [_make_view_variables] and [entry_list] as it is. *)
Lemma entry_list_group_missing user request db g group_id :
  GET request !! "saved" = None → GET request !! "group" = Some g →
  py_int g = Some group_id → fits_int64 group_id →
  (∀ grp, grp ∈ groups db → Group_id grp ≠ group_id) →
  entry_list (Some user) request db = (db, Raise (DoesNotExist "Group")).
Proof.
  intros Hs Hg Hint Hfit Hno. rewrite entry_list_unfold.
  unfold _make_view_variables, int_. run.
  by rewrite Hs, Hg, Hint, (Group_get_missing group_id db Hfit Hno).
Qed.

End missing_rows.

(** C4. The entry list with the Group filter for a group id that does not
    exist: for alice asking for group 7 of the sample store, which has
    groups 1 and 2, the handler ends with peewee's [Group.DoesNotExist]; it
    does not end with [HTTPNotFound], the answer the sibling handlers give
    for a missing entry. *)
Theorem entry_list_missing_group :
  entry_list (H := Sample.builtins) (Some Sample.alice)
    (Sample.request [("group", "7")] []) Sample.db
  = (Sample.db, Raise (DoesNotExist "Group"))
  ∧ (entry_list (H := Sample.builtins) (Some Sample.alice)
       (Sample.request [("group", "7")] []) Sample.db).2
    ≠ Raise HTTPNotFound.
Proof.
  assert (entry_list (H := Sample.builtins) (Some Sample.alice)
            (Sample.request [("group", "7")] []) Sample.db
          = (Sample.db, Raise (DoesNotExist "Group"))) as Hrun.
  { apply (entry_list_group_missing (H := Sample.builtins) _ _ _ "7" 7);
      [reflexivity|reflexivity|reflexivity|unfold fits_int64; lia|].
    intros grp Hgrp. unfold Sample.db in Hgrp; simpl in Hgrp.
    repeat (apply elem_of_cons in Hgrp as [->|Hgrp]); simpl; try discriminate.
    by apply elem_of_nil in Hgrp. }
  split; [exact Hrun|]. by rewrite Hrun.
Qed.


(** * Further properties *)

(** ** Marking and unmarking *)

Lemma filter_all {A} (P : A → Prop) `{!∀ x, Decision (P x)} (l : list A) :
  (∀ x, x ∈ l → P x) → filter P l = l.
Proof.
  intros Hall. induction l as [|x l IH]; [done|].
  rewrite filter_cons_True by (apply Hall; left).
  f_equal. apply IH. intros y Hy. apply Hall. by right.
Qed.

Lemma set_read_id db : set_read (read db) db = db.
Proof. by destruct db. Qed.

Lemma set_saved_id db : set_saved (saved db) db = db.
Proof. by destruct db. Qed.

Lemma Read_delete_snoc now user entry db :
  ¬ is_read db (User_id user) (Entry_id entry) →
  filter (λ r, ¬ Read_matches (User_id user) (Entry_id entry) r)
    (read db ++ [new_Read now user entry db])
  = read db.
Proof.
  intros Hout. rewrite filter_app, filter_all.
  - rewrite filter_cons_False, filter_nil, app_nil_r; [done|].
    intros Hno. by apply Hno.
  - intros r Hr [Hu He]. apply Hout. by exists r.
Qed.

Lemma Saved_delete_snoc now user entry db :
  ¬ is_saved db (User_id user) (Entry_id entry) →
  filter (λ s, ¬ Saved_matches (User_id user) (Entry_id entry) s)
    (saved db ++ [new_Saved now user entry db])
  = saved db.
Proof.
  intros Hout. rewrite filter_app, filter_all.
  - rewrite filter_cons_False, filter_nil, app_nil_r; [done|].
    intros Hno. by apply Hno.
  - intros s Hs [Hu He]. apply Hout. by exists s.
Qed.

(** X1. Marking an entry read and then unread gives back the store as it
    was, row for row, when the user had not read the entry; the same holds
    for saved followed by unsaved when the user had not saved it.  Each half
    asks only for its own table: whether the entry is saved does not matter
    for read and unread, nor whether it is read for saved and unsaved. *)
Theorem mark_then_unmark_restores (now1 now2 : datetime) (user : User)
    (entry : Entry) (db : DB) :
  (¬ is_read db (User_id user) (Entry_id entry) →
   (_mark_entry now2 user entry "unread"
      (_mark_entry now1 user entry "read" db).1).1 = db)
  ∧ (¬ is_saved db (User_id user) (Entry_id entry) →
     (_mark_entry now2 user entry "unsaved"
        (_mark_entry now1 user entry "saved" db).1).1 = db).
Proof.
  split.
  - intros Hr. rewrite mark_read_absent by done. rewrite mark_unread. simpl.
    by rewrite Read_delete_snoc, set_read_set_read, set_read_id.
  - intros Hs. rewrite mark_saved_absent by done. rewrite mark_unsaved. simpl.
    by rewrite Saved_delete_snoc, set_saved_set_saved, set_saved_id.
Qed.

Lemma mark_then_unmark_restores_witness :
  (_mark_entry 61 Sample.alice (Sample.item 4 3 40) "unread"
     (_mark_entry 60 Sample.alice (Sample.item 4 3 40) "read" Sample.db).1).1
  = Sample.db.
Proof.
  apply (proj1 (mark_then_unmark_restores 60 61 Sample.alice (Sample.item 4 3 40)
                  Sample.db)).
  apply Read_matches_nil. reflexivity.
Defined.

Lemma NoDup_fmap_filter {A B} (f : A → B) (P : A → Prop) `{!∀ x, Decision (P x)}
    (l : list A) :
  NoDup (f <$> l) → NoDup (f <$> filter P l).
Proof.
  intros Hnd. eapply sublist_NoDup; [exact Hnd|].
  apply fmap_sublist, sublist_filter.
Qed.

Lemma NoDup_Read_snoc now user entry db :
  ¬ is_read db (User_id user) (Entry_id entry) →
  NoDup ((λ r, (Read_user r, Read_entry r)) <$> read db) →
  NoDup ((λ r, (Read_user r, Read_entry r)) <$> (read db ++ [new_Read now user entry db])).
Proof.
  intros Hout Hnd. rewrite fmap_app. apply NoDup_app.
  split_and!; [done| |apply NoDup_singleton].
  intros k Hk Hk'. simpl in Hk'. apply list_elem_of_singleton in Hk'. subst k.
  apply list_elem_of_fmap in Hk as (r & Heq & Hr). simpl in Heq.
  apply Hout. exists r. injection Heq as Hu He. by split_and!.
Qed.

Lemma NoDup_Saved_snoc now user entry db :
  ¬ is_saved db (User_id user) (Entry_id entry) →
  NoDup ((λ s, (Saved_user s, Saved_entry s)) <$> saved db) →
  NoDup ((λ s, (Saved_user s, Saved_entry s)) <$> (saved db ++ [new_Saved now user entry db])).
Proof.
  intros Hout Hnd. rewrite fmap_app. apply NoDup_app.
  split_and!; [done| |apply NoDup_singleton].
  intros k Hk Hk'. simpl in Hk'. apply list_elem_of_singleton in Hk'. subst k.
  apply list_elem_of_fmap in Hk as (s & Heq & Hs). simpl in Heq.
  apply Hout. exists s. injection Heq as Hu He. by split_and!.
Qed.

Lemma mark_entry_tables now user entry status db :
  ∃ rs ss,
    (_mark_entry now user entry status db).1 = set_read rs (set_saved ss db)
    ∧ (status ≠ "read" → status ≠ "unread" → rs = read db)
    ∧ (status ≠ "saved" → status ≠ "unsaved" → ss = saved db).
Proof.
  assert (∀ rs, set_read rs db = set_read rs (set_saved (saved db) db)) as Hrs
    by (by destruct db).
  assert (∀ ss, set_saved ss db = set_read (read db) (set_saved ss db)) as Hss
    by (by destruct db).
  assert (db = set_read (read db) (set_saved (saved db) db)) as Hid
    by (by destruct db).
  destruct (decide (status = "read")) as [->|Hr].
  { destruct (is_read_dec db (User_id user) (Entry_id entry)) as [Hin|Hout].
    - rewrite mark_read_present by done. by exists (read db), (saved db).
    - rewrite mark_read_absent by done. eexists _, (saved db).
      split; [apply Hrs|done]. }
  destruct (decide (status = "unread")) as [->|Hu].
  { rewrite mark_unread. eexists _, (saved db). split; [apply Hrs|done]. }
  destruct (decide (status = "saved")) as [->|Hs].
  { destruct (is_saved_dec db (User_id user) (Entry_id entry)) as [Hin|Hout].
    - rewrite mark_saved_present by done. by exists (read db), (saved db).
    - rewrite mark_saved_absent by done. eexists (read db), _.
      split; [apply Hss|done]. }
  destruct (decide (status = "unsaved")) as [->|Hn].
  { rewrite mark_unsaved. eexists (read db), _. split; [apply Hss|done]. }
  rewrite mark_other by done. by exists (read db), (saved db).
Qed.

(** X2. [_mark_entry] keeps the keys of the schema unique, whatever the
    status: after it the [(user, entry)] index of [Read] and of [Saved] still
    has no repeated pair.  The other tables are untouched: icons, groups,
    feeds, entries and subscriptions hold the rows they held, and so does
    [Saved] when the status is not [saved] or [unsaved], and [Read] when it
    is not [read] or [unread]. *)
Theorem mark_entry_keeps_unique_keys (now : datetime) (user : User) (entry : Entry)
    (status : string) (db : DB) :
  let db' := (_mark_entry now user entry status db).1 in
  (unique_keys db → unique_keys db')
  ∧ icons db' = icons db ∧ groups db' = groups db ∧ feeds db' = feeds db
  ∧ entries db' = entries db ∧ subscriptions db' = subscriptions db
  ∧ (status ≠ "saved" → status ≠ "unsaved" → saved db' = saved db)
  ∧ (status ≠ "read" → status ≠ "unread" → read db' = read db).
Proof.
  intros db'. split; [|subst db'].
  2:{ destruct (mark_entry_tables now user entry status db) as (rs & ss & -> & Hrs & Hss).
      simpl. split_and!; [done..| |].
      - intros ? ?. by apply Hss.
      - intros ? ?. by apply Hrs. }
  subst db'. intros Huk.
  destruct (decide (status = "read")) as [->|Hr].
  { destruct (is_read_dec db (User_id user) (Entry_id entry)) as [Hin|Hout].
    - by rewrite mark_read_present.
    - rewrite mark_read_absent by done. destruct Huk.
      split; simpl; try done. by apply NoDup_Read_snoc. }
  destruct (decide (status = "unread")) as [->|Hu].
  { rewrite mark_unread. destruct Huk. split; simpl; try done.
    by apply NoDup_fmap_filter. }
  destruct (decide (status = "saved")) as [->|Hs].
  { destruct (is_saved_dec db (User_id user) (Entry_id entry)) as [Hin|Hout].
    - by rewrite mark_saved_present.
    - rewrite mark_saved_absent by done. destruct Huk.
      split; simpl; try done. by apply NoDup_Saved_snoc. }
  destruct (decide (status = "unsaved")) as [->|Hn].
  { rewrite mark_unsaved. destruct Huk. split; simpl; try done.
    by apply NoDup_fmap_filter. }
  by rewrite mark_other.
Qed.

Lemma mark_entry_keeps_unique_keys_witness :
  unique_keys (_mark_entry 60 Sample.alice (Sample.item 4 3 40) "read" Sample.db).1.
Proof.
  apply (proj1 (mark_entry_keeps_unique_keys 60 Sample.alice (Sample.item 4 3 40) "read"
                  Sample.db)).
  split; apply (bool_decide_unpack _); vm_compute; exact I.
Defined.

Lemma mark_saved_store now user entry db :
  ∃ ss, (_mark_entry now user entry "saved" db).1 = set_saved ss db.
Proof.
  destruct (is_saved_dec db (User_id user) (Entry_id entry)) as [Hin|Hout].
  - rewrite mark_saved_present by done. exists (saved db). by rewrite set_saved_id.
  - rewrite mark_saved_absent by done. by eexists.
Qed.

Lemma mark_read_store now user entry db :
  ∃ rs, (_mark_entry now user entry "read" db).1 = set_read rs db.
Proof.
  destruct (is_read_dec db (User_id user) (Entry_id entry)) as [Hin|Hout].
  - rewrite mark_read_present by done. exists (read db). by rewrite set_read_id.
  - rewrite mark_read_absent by done. by eexists.
Qed.

(** X3. Saved state and read state are independent: marking an entry saved
    or unsaved changes no user's Unread view, whole or paged, and marking it
    read or unread changes no user's Saved view. *)
Theorem saved_and_read_independent (now : datetime) (user viewer : User)
    (entry : Entry) (sel : Select) (offset : Z) (db : DB) :
  let unread d := (rows d (get_unread_entries viewer sel),
                   rows d (page offset (get_unread_entries viewer sel))) in
  let saved_view d := (rows d (get_saved_entries viewer sel),
                       rows d (page offset (get_saved_entries viewer sel))) in
  unread (_mark_entry now user entry "saved" db).1 = unread db
  ∧ unread (_mark_entry now user entry "unsaved" db).1 = unread db
  ∧ saved_view (_mark_entry now user entry "read" db).1 = saved_view db
  ∧ saved_view (_mark_entry now user entry "unread" db).1 = saved_view db.
Proof.
  intros unread saved_view. split_and!.
  - destruct (mark_saved_store now user entry db) as (ss & ->). done.
  - by rewrite mark_unsaved.
  - destruct (mark_read_store now user entry db) as (rs & ->). done.
  - by rewrite mark_unread.
Qed.

(** ** Posting a status *)

Lemma mark_entry_returns now user entry status db :
  ∃ db1, _mark_entry now user entry status db = (db1, Ok ()).
Proof.
  destruct (decide (status = "read")) as [->|Hr].
  { destruct (is_read_dec db (User_id user) (Entry_id entry)) as [Hin|Hout].
    - exists db. by rewrite mark_read_present.
    - eexists. by rewrite mark_read_absent. }
  destruct (decide (status = "unread")) as [->|Hu].
  { eexists. by rewrite mark_unread. }
  destruct (decide (status = "saved")) as [->|Hs].
  { destruct (is_saved_dec db (User_id user) (Entry_id entry)) as [Hin|Hout].
    - exists db. by rewrite mark_saved_present.
    - eexists. by rewrite mark_saved_absent. }
  destruct (decide (status = "unsaved")) as [->|Hn].
  { eexists. by rewrite mark_unsaved. }
  exists db. by rewrite mark_other.
Qed.

Section entry_post.
Context `{Builtins}.

Lemma entry_post_no_status now user request entry_id db :
  POST request !! "as" = None →
  entry_post now (Some user) request entry_id db = (db, Raise HTTPBadRequest).
Proof. intros Has. unfold entry_post, getitem. run. by rewrite Has. Qed.

Lemma entry_post_no_entry now user request entry_id status db :
  POST request !! "as" = Some status →
  fits_int64 entry_id →
  (∀ e, e ∈ entries db → Entry_id e ≠ entry_id) →
  entry_post now (Some user) request entry_id db = (db, Raise HTTPNotFound).
Proof.
  intros Has Hfit Hno. unfold entry_post, getitem. run.
  by rewrite Has, (Entry_get_missing entry_id db Hfit Hno).
Qed.

Lemma entry_post_found now user request entry_id status entry db :
  POST request !! "as" = Some status →
  Entry_get entry_id db = (db, Ok entry) →
  entry_post now (Some user) request entry_id db
  = match POST request !! "mark" with
    | Some _ => _mark_entry now user entry status db
    | None => (db, Ok ())
    end.
Proof.
  intros Has Hget. unfold entry_post, getitem. run. rewrite Has, Hget.
  by destruct (POST request !! "mark").
Qed.

End entry_post.

(** X4. [POST /entries/<id>] checks its form before it looks the entry up:
    without the field [as] it answers [HTTPBadRequest], for an existing entry
    or not, whatever the id; with [as] and an entry id that no row has and
    that the engine can bind (a signed 64-bit integer) it answers
    [HTTPNotFound]; in both cases nothing is written. *)
Theorem entry_post_errors `{Builtins} (now : datetime) (user : User)
    (request : Request) (entry_id : Z) (db : DB) :
  (POST request !! "as" = None
   ∨ (fits_int64 entry_id ∧ ∀ e, e ∈ entries db → Entry_id e ≠ entry_id)) →
  entry_post now (Some user) request entry_id db
  = (db, Raise (match POST request !! "as" with
                | Some _ => HTTPNotFound
                | None => HTTPBadRequest
                end)).
Proof.
  intros Hbad. destruct (POST request !! "as") as [status|] eqn:Has.
  - destruct Hbad as [?|[Hfit Hno]]; [done|]. by eapply entry_post_no_entry.
  - by apply entry_post_no_status.
Qed.

Lemma entry_post_errors_witness :
  entry_post (H := Sample.builtins) 60 (Some Sample.alice)
    (Sample.request [] [("mark", "1")]) 99 Sample.db
  = (Sample.db, Raise HTTPBadRequest).
Proof.
  apply (entry_post_errors (H := Sample.builtins) 60 Sample.alice
           (Sample.request [] [("mark", "1")]) 99 Sample.db).
  left. reflexivity.
Defined.

(** X5. [POST /entries/<id>] for an existing entry writes only when the form
    carries the field [mark]: without it the handler returns normally and
    the store is unchanged, whatever [as] says.  With it, the handler
    returns normally and afterwards the entry is read by the user for
    [as=read], not read for [as=unread], saved for [as=saved], not saved for
    [as=unsaved]. *)
Theorem entry_post_effect `{Builtins} (now : datetime) (user : User)
    (request : Request) (entry_id : Z) (status : string) (db : DB) :
  (∃ e, e ∈ entries db ∧ Entry_id e = entry_id) →
  POST request !! "as" = Some status →
  let out := entry_post now (Some user) request entry_id db in
  out.2 = Ok ()
  ∧ (POST request !! "mark" = None → out.1 = db)
  ∧ (is_Some (POST request !! "mark") →
     (status = "read" → is_read out.1 (User_id user) entry_id)
     ∧ (status = "unread" → ¬ is_read out.1 (User_id user) entry_id)
     ∧ (status = "saved" → is_saved out.1 (User_id user) entry_id)
     ∧ (status = "unsaved" → ¬ is_saved out.1 (User_id user) entry_id)).
Proof.
  intros Hex Has.
  destruct (Entry_get_found entry_id db Hex) as (e & Hget & He & <-).
  simpl. rewrite (entry_post_found now user request _ status e db Has Hget).
  destruct (POST request !! "mark") as [m|].
  - destruct (mark_entry_returns now user e status db) as (db1 & Hrun).
    rewrite Hrun. simpl. split_and!; [done|done|].
    intros _. split_and!; intros ->.
    + destruct (is_read_dec db (User_id user) (Entry_id e)) as [Hin|Hout].
      * rewrite mark_read_present in Hrun by done. by injection Hrun as <-.
      * rewrite mark_read_absent in Hrun by done. injection Hrun as <-.
        apply is_read_snoc. by right.
    + rewrite mark_unread in Hrun. injection Hrun as <-.
      rewrite is_read_delete. by intros [_ []].
    + destruct (is_saved_dec db (User_id user) (Entry_id e)) as [Hin|Hout].
      * rewrite mark_saved_present in Hrun by done. by injection Hrun as <-.
      * rewrite mark_saved_absent in Hrun by done. injection Hrun as <-.
        apply is_saved_snoc. by right.
    + rewrite mark_unsaved in Hrun. injection Hrun as <-.
      unfold is_saved, Saved_matches; simpl.
      intros (s & Hs & Hu & Hen). apply list_elem_of_filter in Hs as [Hno _].
      by apply Hno.
  - simpl. split_and!; [done|done|]. by intros [? [=]].
Qed.

Lemma entry_post_effect_witness :
  ¬ is_read (entry_post (H := Sample.builtins) 60 (Some Sample.alice)
               (Sample.request [] [("as", "unread"); ("mark", "1")]) 2 Sample.db).1
      1 2.
Proof.
  apply (entry_post_effect (H := Sample.builtins) 60 Sample.alice
           (Sample.request [] [("as", "unread"); ("mark", "1")]) 2 "unread" Sample.db).
  - exists (Sample.item 2 1 20). split; [|reflexivity].
    unfold Sample.db; simpl.
    repeat first [apply list_elem_of_here|apply list_elem_of_further].
  - reflexivity.
  - by eexists.
  - reflexivity.
Defined.

(** X6. [GET /entries/<id>] for an entry id that no row has writes nothing:
    no [Read] row is made for an entry that is not there.  When the id is one
    the engine can bind (a signed 64-bit integer) the lookup raises
    [DoesNotExist] and the answer is [HTTPNotFound]; when it is not, binding
    it raises [OverflowError], which the handler does not catch. *)
Theorem entry_unknown_id `{Builtins} (now : datetime) (user : User)
    (request : Request) (entry_id : Z) (db : DB) :
  (∀ e, e ∈ entries db → Entry_id e ≠ entry_id) →
  entry now (Some user) request entry_id db
  = (db, Raise (if decide (fits_int64 entry_id) then HTTPNotFound else OverflowError)).
Proof.
  intros Hno. unfold entry, Entry_get. run.
  rewrite (proj2 (filter_nil_iff (λ e, Entry_id e = entry_id) (entries db)) Hno).
  destruct (decide (fits_int64 entry_id)) as [Hfit|Hbig].
  - by rewrite no_row_fits.
  - by rewrite no_row_overflow.
Qed.

Lemma entry_unknown_id_witness :
  entry (H := Sample.builtins) 60 (Some Sample.alice) (Sample.request [] []) 99 Sample.db
  = (Sample.db, Raise HTTPNotFound).
Proof.
  apply (entry_unknown_id (H := Sample.builtins) 60 Sample.alice (Sample.request [] [])
           99 Sample.db).
  intros e He. unfold Sample.db in He; simpl in He.
  repeat (apply elem_of_cons in He as [->|He]); simpl; try discriminate.
  by apply elem_of_nil in He.
Defined.
(** ** What the views show *)

Lemma reachable_through_joined db user P id :
  feed_icons_exist db →
  reachable_through db user P id
  ↔ ∃ j, j ∈ joined db ∧ Subscription_user (j_subscription j) = user
         ∧ P (j_subscription j) ∧ Entry_id (j_entry j) = id.
Proof.
  intros Hfk. unfold reachable_through. split.
  - intros (e & f & s & He & Hid & Hf & Hfe & Hs & Hsf & Hsu & HP).
    destruct (Hfk f Hf) as (i & Hi & Hif).
    exists {| j_entry := e; j_feed := f; j_icon := i; j_subscription := s |}.
    rewrite elem_of_joined. simpl. by split_and!.
  - intros (j & Hj & Hu & HP & Hid).
    apply elem_of_joined in Hj as (He & Hf & Hfe & _ & _ & Hs & Hsf).
    exists (j_entry j), (j_feed j), (j_subscription j). by split_and!.
Qed.

(** X7. Given the icon rows the feeds point to, the other four views show
    exactly this: All, the entries reachable through a subscription of the
    user; Saved, those of them the user has saved; Group, the entries
    reachable through a subscription of the user in that group; Feed, the
    entries reachable through a subscription of the user to that feed. *)
Theorem view_contents (user : User) (sel : Select) (db : DB) (id : Z) :
  feed_icons_exist db →
  (id ∈ ids (rows db (get_all_entries user sel))
   ↔ reachable db (User_id user) id)
  ∧ (id ∈ ids (rows db (get_saved_entries user sel))
     ↔ reachable db (User_id user) id ∧ is_saved db (User_id user) id)
  ∧ (∀ group, id ∈ ids (rows db (get_group_entries user group sel))
              ↔ reachable_through db (User_id user)
                  (λ s, Subscription_group s = Group_id group) id)
  ∧ (∀ feed, id ∈ ids (rows db (get_feed_entries user feed sel))
             ↔ reachable_through db (User_id user)
                 (λ s, Subscription_feed s = Feed_id feed) id).
Proof.
  intros Hfk. split_and!.
  - rewrite elem_of_ids_rows by done. rewrite reachable_joined by done.
    unfold get_all_entries, Subscription_user_is; simpl.
    split; intros (j & Hj & Hw & Hid); exists j.
    + apply bool_decide_unpack in Hw. split; [exact Hj|]. split; [exact Hw|exact Hid].
    + split; [exact Hj|]. split; [|exact Hid]. by apply bool_decide_pack.
  - rewrite elem_of_ids_rows by done. rewrite reachable_joined by done.
    unfold get_saved_entries, Subscription_user_is; simpl. split.
    + intros (j & Hj & Hw & Hid). apply andb_prop_elim in Hw as [Hu Hs].
      apply bool_decide_unpack in Hu, Hs.
      rewrite elem_of_Saved_entries, Hid in Hs. eauto.
    + intros [(j & Hj & Hu & Hid) Hs]. exists j. split; [done|]. split; [|done].
      apply andb_prop_intro. split; apply bool_decide_pack; [done|].
      by rewrite elem_of_Saved_entries, Hid.
  - intros group. rewrite elem_of_ids_rows by done.
    rewrite reachable_through_joined by done.
    unfold get_group_entries, Subscription_user_is; simpl. split.
    + intros (j & Hj & Hw & Hid). apply andb_prop_elim in Hw as [Hu Hg].
      apply bool_decide_unpack in Hu, Hg. eauto.
    + intros (j & Hj & Hu & Hg & Hid). exists j. split; [done|]. split; [|done].
      apply andb_prop_intro. by split; apply bool_decide_pack.
  - intros feed. rewrite elem_of_ids_rows by done.
    rewrite reachable_through_joined by done.
    unfold get_feed_entries, Subscription_user_is; simpl. split.
    + intros (j & Hj & Hw & Hid). apply andb_prop_elim in Hw as [Hu Hf].
      apply bool_decide_unpack in Hu, Hf. eauto.
    + intros (j & Hj & Hu & Hf & Hid). exists j. split; [done|]. split; [|done].
      apply andb_prop_intro. by split; apply bool_decide_pack.
Qed.

Lemma Sample_feed_icons_exist : feed_icons_exist Sample.db.
Proof.
  intros f Hf. exists {| Icon_id := 1; Icon_data := "data:" |}.
  split; [apply list_elem_of_here|].
  unfold Sample.db in Hf; simpl in Hf.
  repeat (apply elem_of_cons in Hf as [->|Hf]); try reflexivity.
  by apply elem_of_nil in Hf.
Qed.

Lemma view_contents_witness :
  4 ∈ ids (rows Sample.db (get_all_entries Sample.bob Select_default))
  ↔ reachable Sample.db 2 4.
Proof.
  exact (proj1 (view_contents Sample.bob Select_default Sample.db 4
                  Sample_feed_icons_exist)).
Defined.




(** ** The entry list as a whole *)

(** X9. [GET /entries] only reads: whoever asks and whatever the request,
    whether it returns a page or raises, the store afterwards is the store
    before. *)
Theorem entry_list_read_only `{Builtins} (self_user : option User)
    (request : Request) (db : DB) :
  (entry_list self_user request db).1 = db.
Proof.
  destruct self_user as [user|]; [|done].
  rewrite entry_list_unfold.
  pose proof (make_view_variables_db user request db) as Hdb.
  destruct (_make_view_variables user request db) as [db' [[q ns]|e]];
    simpl in Hdb; subst db'; [|done].
  by destruct (request_offset request).
Qed.

Section entry_list_errors.
Context `{Builtins}.



End entry_list_errors.



(** ** Order and size of a page *)

#[global] Instance order_rel_total o : Total (order_rel o).
Proof. destruct o. intros j1 j2. simpl. lia. Qed.

#[global] Instance order_rel_trans o : Transitive (order_rel o).
Proof. destruct o. intros j1 j2 j3. simpl. lia. Qed.

Lemma StronglySorted_sublist {A} (R : relation A) (l k : list A) :
  k `sublist_of` l → StronglySorted R l → StronglySorted R k.
Proof.
  induction 1 as [|x k l Hsub IH|x k l Hsub IH]; intros Hs.
  - constructor.
  - apply StronglySorted_cons in Hs as [Hall Hs]. apply StronglySorted_cons.
    split; [|by apply IH]. rewrite Forall_forall in *.
    intros y Hy. apply Hall. by eapply elem_of_sublist.
  - apply StronglySorted_cons in Hs as [_ Hs]. by apply IH.
Qed.

Lemma remove_dups_sublist {A} `{EqDecision A} (l : list A) :
  remove_dups l `sublist_of` l.
Proof.
  induction l as [|x l IH]; simpl; [done|].
  destruct (decide_rel _ x l); by constructor.
Qed.

Lemma StronglySorted_lookup {A} (R : relation A) (l : list A) (i j : nat) x y :
  StronglySorted R l → (i < j)%nat → l !! i = Some x → l !! j = Some y → R x y.
Proof.
  intros Hs. revert i j. induction Hs as [|a l Hs IH Hall]; intros i j Hij Hi Hj.
  - done.
  - destruct j as [|j]; [lia|]. destruct i as [|i]; simpl in *.
    + injection Hi as <-. rewrite Forall_forall in Hall. apply Hall.
      by eapply list_elem_of_lookup_2.
    + apply (IH i j); [lia|done..].
Qed.

Lemma rows_newest_first db q :
  q_order_by q = Some Entry_last_updated_on_desc →
  StronglySorted newest_first (rows db q).
Proof.
  intros Ho. eapply StronglySorted_sublist; [apply rows_sublist|].
  unfold unpaged_rows. rewrite Ho.
  assert (StronglySorted newest_first
            (project (q_select q) <$>
               merge_sort (order_rel Entry_last_updated_on_desc)
                 (filter (λ j, q_where q db j) (joined db)))) as Hs.
  { eapply StronglySorted_fmap; [|apply StronglySorted_merge_sort; apply _].
    intros j1 j2 Hle e1 f1 i1 e2 f2 i2 H1 H2.
    destruct (q_select q); simpl in H1, H2; [|done].
    injection H1 as <- _ _. injection H2 as <- _ _. done. }
  destruct (q_distinct q); [|done].
  eapply StronglySorted_sublist; [apply remove_dups_sublist|done].
Qed.

(** X11. A page of [GET /entries] holds at most 30 entries, newest first: of
    two entries on a page the one listed earlier has the later or the same
    [last_updated_on].  The next offset it reports is the offset of the
    request plus 30. *)
Theorem entry_list_page_order `{Builtins} (user : User) (request : Request)
    (db db' : DB) (ns : ViewVariables) (es : list Row) (next : Z)
    (prev_date : option string) :
  entry_list (Some user) request db = (db', Ok (entries_html ns es next prev_date)) →
  (length es ≤ 30)%nat
  ∧ (∃ offset, request_offset request = Ok offset ∧ next = offset + 30)
  ∧ (∀ i j e1 f1 i1 e2 f2 i2,
       (i < j)%nat →
       es !! i = Some (Row_Entry_Feed_Icon e1 f1 i1) →
       es !! j = Some (Row_Entry_Feed_Icon e2 f2 i2) →
       Entry_last_updated_on e2 ≤ Entry_last_updated_on e1)
  ∧ (∀ r, r ∈ es → ∃ e f i, r = Row_Entry_Feed_Icon e f i).
Proof.
  rewrite entry_list_unfold.
  destruct (_make_view_variables user request db) as [db1 [[q ns1]|x]] eqn:Hrun;
    [|done].
  apply make_view_variables_inv in Hrun as (-> & X & HX & -> & _).
  destruct (request_offset request) as [offset|]; [|done].
  intros [= <- <- <- <- <-].
  destruct (is_view_unpaged user X Select_default HX) as [Hoff Hlim].
  split_and!.
  - rewrite rows_page by done. rewrite length_take. unfold ENTRIES_PER_PAGE. lia.
  - by exists offset.
  - intros i j e1 f1 i1 e2 f2 i2 Hij Hi Hj.
    eapply (StronglySorted_lookup newest_first _ i j); [|done..].
    by apply rows_newest_first.
  - intros r Hr. apply elem_of_rows in Hr as (jr & _ & _ & ->).
    assert (q_select (page offset (X Select_default)) = Select_default) as ->
      by by destruct HX.
    simpl. eauto.
Qed.

Lemma entry_list_page_order_witness :
  (length (rows Sample.db (page 0 (get_unread_entries Sample.alice Select_default)))
   ≤ 30)%nat.
Proof.
  apply (proj1 (entry_list_page_order (H := Sample.builtins) Sample.alice
                  (Sample.request [] []) Sample.db Sample.db
                  {| ns_count := 3; ns_group_id := 0; ns_feed_id := 0;
                     ns_filter_class := "unread";
                     ns_read_ids := read_ids_of Sample.alice Sample.db;
                     ns_saved_ids := saved_ids_of Sample.alice Sample.db |}
                  (rows Sample.db (page 0 (get_unread_entries Sample.alice Select_default)))
                  30 None ltac:(vm_compute; reflexivity))).
Defined.

(** X12. With the keys of the schema unique, the page of [GET /entries] at a
    non-negative offset holds [min 30 (count - offset)] entries, [count]
    being the count the same response reports: pages are full until the
    entries run out, and a page past the end is empty. *)
Theorem entry_list_page_size `{Builtins} (user : User) (request : Request)
    (db db' : DB) (ns : ViewVariables) (es : list Row) (next : Z)
    (prev_date : option string) :
  unique_keys db →
  entry_list (Some user) request db = (db', Ok (entries_html ns es next prev_date)) →
  30 ≤ next →
  length es = (30 `min` (ns_count ns - Z.to_nat (next - 30)))%nat.
Proof.
  intros Huk. rewrite entry_list_unfold.
  destruct (_make_view_variables user request db) as [db1 [[q ns1]|x]] eqn:Hrun;
    [|done].
  apply make_view_variables_inv in Hrun as (-> & X & HX & -> & Hcount).
  destruct (request_offset request) as [offset|]; [|done].
  intros [= <- <- <- <- <-] Hnext.
  destruct (is_view_unpaged user X Select_default HX) as [Hoff Hlim].
  rewrite rows_page by done. rewrite length_take, length_drop.
  rewrite Hcount, (count_view db user X Huk HX).
  unfold ENTRIES_PER_PAGE. replace (offset + Z.of_nat 30 - 30) with offset by lia.
  done.
Qed.

Lemma entry_list_page_size_witness :
  length (rows Sample.db45
            (page 30 (get_group_entries Sample.alice
                        {| Group_id := 1; Group_title := "Default" |} Select_default)))
  = (30 `min` (45 - Z.to_nat (60 - 30)))%nat.
Proof.
  apply (entry_list_page_size (H := Sample.builtins) Sample.alice
           (Sample.request [("group", "1"); ("offset", "30")] [])
           Sample.db45 Sample.db45
           {| ns_count := 45; ns_group_id := 1; ns_feed_id := 0;
              ns_filter_class := EmptyString;
              ns_read_ids := read_ids_of Sample.alice Sample.db45;
              ns_saved_ids := saved_ids_of Sample.alice Sample.db45 |}
           _ 60 None Sample_unique_keys45).
  - vm_compute. reflexivity.
  - lia.
Defined.

(** ** The link to the next entry *)

Section next_entry.
Context `{Builtins}.

Lemma entry_found_unfold now user request entry_id e db :
  Entry_get entry_id db = (db, Ok e) →
  ∃ db1,
    _mark_entry now user e "read" db = (db1, Ok ())
    ∧ entry now (Some user) request entry_id db
      = match _make_view_variables user request db1 with
        | (db2, Ok (q, ns)) =>
            (db2, Ok (entry_html (set_count 0 ns) e (rows db2 (next_entries e q))))
        | (db2, Raise x) => (db2, Raise x)
        end.
Proof.
  intros Hget. destruct (mark_entry_returns now user e "read" db) as (db1 & Hmark).
  exists db1. split; [done|].
  unfold entry, next_entries. run. rewrite Hget, Hmark.
  by destruct (_make_view_variables user request db1) as [db2 [[q ns]|x]].
Qed.

End next_entry.

Lemma next_entries_rows db user X e :
  is_view user X →
  rows db (next_entries e (X Select_default))
  = take 1 (rows db (Query_order_by Entry_last_updated_on_desc
                       (Query_where
                          (λ _ j, bool_decide (Entry_last_updated_on (j_entry j)
                                               < Entry_last_updated_on e))
                          (X Select_default)))).
Proof. by intros []. Qed.

Lemma elem_of_older_rows db user X e r :
  is_view user X →
  r ∈ rows db (Query_order_by Entry_last_updated_on_desc
                 (Query_where
                    (λ _ j, bool_decide (Entry_last_updated_on (j_entry j)
                                         < Entry_last_updated_on e))
                    (X Select_default)))
  ↔ ∃ e' f' i', r = Row_Entry_Feed_Icon e' f' i'
                ∧ r ∈ rows db (X Select_default)
                ∧ Entry_last_updated_on e' < Entry_last_updated_on e.
Proof.
  intros HX.
  assert (∀ q, q_offset q = None → q_limit q = None →
               rows db q = unpaged_rows db q) as Hun
    by (intros q Ho Hl; unfold rows; by rewrite Ho, Hl).
  rewrite !Hun by (by destruct HX). rewrite !elem_of_unpaged_rows.
  assert (q_select (X Select_default) = Select_default) as Hsel by by destruct HX.
  simpl. rewrite Hsel. split.
  - intros (j & Hj & Hw & ->). apply andb_prop_elim in Hw as [Hw Hold].
    apply bool_decide_unpack in Hold.
    exists (j_entry j), (j_feed j), (j_icon j).
    split; [done|]. split; [|done].
    apply elem_of_unpaged_rows. exists j. by rewrite Hsel.
  - intros (e' & f' & i' & -> & Hr & Hold).
    apply elem_of_unpaged_rows in Hr as (j & Hj & Hw & Hp).
    rewrite Hsel in Hp. simpl in Hp. injection Hp as -> -> ->.
    exists j. split; [done|]. split; [|done].
    apply andb_prop_intro. split; [done|]. by apply bool_decide_pack.
Qed.

(** X13. The entry page links to at most one next entry, and that is the
    newest row of the current view that is older than the entry shown: it is
    a row of the view, updated strictly before the entry, and no row of the
    view updated before the entry is newer than it.  There is no link
    exactly when the view has no older row.  The [count] on this page is
    always 0. *)
Theorem entry_next_entry `{Builtins} (now : datetime) (user : User)
    (request : Request) (entry_id : Z) (db db' : DB) (ns : ViewVariables)
    (e : Entry) (n : list Row) :
  entry now (Some user) request entry_id db = (db', Ok (entry_html ns e n)) →
  ns_count ns = 0%nat ∧ (length n ≤ 1)%nat
  ∧ ∃ q ns0,
      _make_view_variables user request db' = (db', Ok (q, ns0))
      ∧ (∀ r, r ∈ n →
           ∃ e' f' i', r = Row_Entry_Feed_Icon e' f' i' ∧ r ∈ rows db' q
             ∧ Entry_last_updated_on e' < Entry_last_updated_on e
             ∧ ∀ e2 f2 i2, Row_Entry_Feed_Icon e2 f2 i2 ∈ rows db' q →
                 Entry_last_updated_on e2 < Entry_last_updated_on e →
                 Entry_last_updated_on e2 ≤ Entry_last_updated_on e')
      ∧ (n = [] → ∀ e2 f2 i2, Row_Entry_Feed_Icon e2 f2 i2 ∈ rows db' q →
                   ¬ Entry_last_updated_on e2 < Entry_last_updated_on e).
Proof.
  intros Hrun.
  assert (∃ e0, Entry_get entry_id db = (db, Ok e0)) as (e0 & Hget).
  { revert Hrun. unfold entry, Entry_get, no_row. run.
    destruct (filter _ (entries db)) as [|e0 k]; [|eauto].
    by destruct (bool_decide (fits_int64 entry_id)). }
  destruct (entry_found_unfold now user request entry_id e0 db Hget)
    as (db1 & Hmark & Hunf).
  rewrite Hunf in Hrun.
  pose proof (make_view_variables_db user request db1) as Hdb.
  destruct (_make_view_variables user request db1) as [db2 [[q ns0]|x]] eqn:Hview;
    [|done].
  simpl in Hdb. subst db2. injection Hrun as <- <- <- <-.
  destruct (make_view_variables_inv _ _ _ _ _ _ Hview) as (_ & X & HX & -> & _).
  rewrite (next_entries_rows db1 user X e0 HX).
  set (older := rows db1 (Query_order_by Entry_last_updated_on_desc
                            (Query_where _ (X Select_default)))).
  assert (StronglySorted newest_first older) as Hsorted
    by (apply rows_newest_first; by destruct HX).
  pose proof (λ r, elem_of_older_rows db1 user X e0 r HX) as Hmem.
  fold older in Hmem. clearbody older.
  split_and!; [done|rewrite length_take; lia|].
  exists (X Select_default), ns0. split_and!; [done| |].
  - intros r Hr. destruct older as [|r0 k]; [by apply elem_of_nil in Hr|].
    simpl in Hr. apply list_elem_of_singleton in Hr. subst r.
    destruct (proj1 (Hmem r0)) as (e' & f' & i' & -> & Hview' & Hold); [left|].
    exists e', f', i'. split_and!; [done..|].
    intros e2 f2 i2 H2 Hold2.
    assert (Row_Entry_Feed_Icon e2 f2 i2 ∈ Row_Entry_Feed_Icon e' f' i' :: k) as Hin2
      by (apply Hmem; eauto 10).
    apply StronglySorted_cons in Hsorted as [Hall _].
    apply elem_of_cons in Hin2 as [[= -> _ _]|Hin2]; [lia|].
    rewrite Forall_forall in Hall. by eapply (Hall _ Hin2).
  - intros Hnil e2 f2 i2 H2 Hold2.
    assert (Row_Entry_Feed_Icon e2 f2 i2 ∈ older) as Hin2
      by (apply Hmem; eauto 10).
    destruct older as [|r0 k]; [by apply elem_of_nil in Hin2|done].
Qed.

Lemma entry_next_entry_witness :
  (length (rows Sample.db
             (next_entries (Sample.item 2 1 20)
                (get_all_entries Sample.alice Select_default))) ≤ 1)%nat.
Proof.
  apply (proj1 (proj2 (entry_next_entry (H := Sample.builtins) 60 Sample.alice
                         (Sample.request [("all", "1")] []) 2 Sample.db Sample.db
                         {| ns_count := 0; ns_group_id := 0; ns_feed_id := 0;
                            ns_filter_class := "all";
                            ns_read_ids := read_ids_of Sample.alice Sample.db;
                            ns_saved_ids := saved_ids_of Sample.alice Sample.db |}
                         (Sample.item 2 1 20)
                         (rows Sample.db
                            (next_entries (Sample.item 2 1 20)
                               (get_all_entries Sample.alice Select_default)))
                         ltac:(vm_compute; reflexivity)))).
Defined.

(** ** Bulk mark, again *)

Lemma mark_candidate_set_read db rs user before id :
  mark_candidate (set_read rs db) user before id
  ↔ (∃ e f s T, e ∈ entries db ∧ Entry_id e = id
                ∧ f ∈ feeds db ∧ Feed_id f = Entry_feed e
                ∧ s ∈ subscriptions db ∧ Subscription_feed s = Feed_id f
                ∧ Subscription_user s = user
                ∧ Feed_last_checked_on f = Some T ∧ T < before)
    ∧ ¬ is_read (set_read rs db) user id.
Proof.
  unfold mark_candidate; simpl. split.
  - intros (e & f & s & T & ? & ? & ? & ? & ? & ? & ? & ? & ? & ?).
    split; [|done]. exists e, f, s, T. by split_and!.
  - intros [(e & f & s & T & ? & ? & ? & ? & ? & ? & ? & ? & ?) ?].
    exists e, f, s, T. by split_and!.
Qed.

Section bulk_mark_again.
Context `{Builtins}.

(** After bulk mark nothing is left to mark for the same cutoff. *)
Lemma no_candidate_after_bulk_mark now user request db before id :
  cutoff request = Some before →
  ¬ mark_candidate (entry_list_mark_post now (Some user) request db).1
      (User_id user) before id.
Proof.
  intros Hcut.
  destruct (entry_list_mark_post_ok now user request db before Hcut)
    as (rs & Hrun & Hiff & _).
  rewrite Hrun; simpl. rewrite mark_candidate_set_read.
  intros [(e & f & s & T & He & Hid & Hf & Hfe & Hs & Hsf & Hu & HT & Hlt) Hnr].
  apply Hnr, Hiff.
  destruct (is_read_dec db (User_id user) id) as [?|Hout]; [by left|].
  right. split; [done|]. exists e, f, s, T. by split_and!.
Qed.

End bulk_mark_again.

(** X14. Bulk mark is idempotent: run again with the same cutoff, at any
    later clock reading, it returns normally and leaves the store exactly as
    the first run left it. *)
Theorem bulk_mark_idempotent `{Builtins} (now1 now2 : datetime) (user : User)
    (request : Request) (db : DB) (C : datetime) :
  cutoff request = Some C →
  let db1 := (entry_list_mark_post now1 (Some user) request db).1 in
  entry_list_mark_post now2 (Some user) request db1
  = (db1, Ok (modal_alert_html [("unread", EmptyString)])).
Proof.
  intros Hcut db1.
  assert (entry_list_mark_post_q user C db1 = []) as Hq.
  { apply elem_of_nil_inv. intros e He.
    apply (no_candidate_after_bulk_mark now1 user request db C (Entry_id e) Hcut).
    apply elem_of_entry_list_mark_post_q. by apply list_elem_of_fmap_2. }
  by rewrite entry_list_mark_post_unfold, (cutoff_Some _ _ Hcut), Hq.
Qed.

Lemma bulk_mark_idempotent_witness :
  let db1 := (entry_list_mark_post (H := Sample.builtins) 77 (Some Sample.alice)
                (Sample.request [] [("before", "200")]) Sample.db).1 in
  entry_list_mark_post (H := Sample.builtins) 78 (Some Sample.alice)
    (Sample.request [] [("before", "200")]) db1
  = (db1, Ok (modal_alert_html [("unread", EmptyString)])).
Proof.
  apply (bulk_mark_idempotent (H := Sample.builtins) 77 78 Sample.alice
           (Sample.request [] [("before", "200")]) Sample.db 200).
  reflexivity.
Defined.

(** X15. After bulk mark the Unread view of the caller shows what it showed
    before, less the entries marked: an entry is unread afterwards iff it was
    unread before and is no candidate for the cutoff.  So when every feed
    the caller subscribes to was checked before the cutoff, the Unread view
    is empty afterwards. *)
Theorem unread_view_after_bulk_mark `{Builtins} (now : datetime) (user : User)
    (request : Request) (db : DB) (C : datetime) (sel : Select) :
  cutoff request = Some C →
  let db1 := (entry_list_mark_post now (Some user) request db).1 in
  (∀ id, id ∈ ids (rows db1 (get_unread_entries user sel))
         ↔ id ∈ ids (rows db (get_unread_entries user sel))
           ∧ ¬ mark_candidate db (User_id user) C id)
  ∧ ((∀ f s, f ∈ feeds db → s ∈ subscriptions db →
             Subscription_user s = User_id user → Subscription_feed s = Feed_id f →
             ∃ T, Feed_last_checked_on f = Some T ∧ T < C) →
     rows db1 (get_unread_entries user sel) = []).
Proof.
  intros Hcut db1.
  destruct (entry_list_mark_post_ok now user request db C Hcut)
    as (rs & Hrun & Hiff & _).
  assert (db1 = set_read (read db ++ rs) db) as Hdb1 by (subst db1; by rewrite Hrun).
  clearbody db1. subst db1.
  assert (∀ id, id ∈ ids (rows (set_read (read db ++ rs) db) (get_unread_entries user sel))
                ↔ id ∈ ids (rows db (get_unread_entries user sel))
                  ∧ ¬ mark_candidate db (User_id user) C id) as Hview.
  { intros id. rewrite !unread_view_rows. rewrite Hiff.
    assert (reachable_with_icon (set_read (read db ++ rs) db) (User_id user) id
            ↔ reachable_with_icon db (User_id user) id) as -> by done.
    split; [intros [Hr Hn]|intros [[Hr Hn] Hc]].
    - split_and!; [done|intros ?; apply Hn; by left|intros ?; apply Hn; by right].
    - split; [done|]. by intros [?|[_ ?]]. }
  split; [done|].
  intros Hall. apply elem_of_nil_inv. intros r Hr.
  assert (Row_entry_id r ∈ ids (rows (set_read (read db ++ rs) db)
                                  (get_unread_entries user sel))) as Hid
    by by apply list_elem_of_fmap_2.
  apply Hview in Hid as [Hin Hnc]. apply Hnc.
  apply unread_view_rows in Hin
    as [(e & f & i & s & He & Hid & Hf & Hfe & _ & _ & Hs & Hsf & Hu) Hnr].
  destruct (Hall f s Hf Hs Hu Hsf) as (T & HT & Hlt).
  exists e, f, s, T. by split_and!.
Qed.

Lemma unread_view_after_bulk_mark_witness :
  1 ∈ ids (rows (entry_list_mark_post (H := Sample.builtins) 77
                   (Some Sample.alice)
                   (Sample.request [] [("before", "200")]) Sample.db).1
             (get_unread_entries Sample.alice Select_default))
  ↔ 1 ∈ ids (rows Sample.db (get_unread_entries Sample.alice Select_default))
    ∧ ¬ mark_candidate Sample.db 1 200 1.
Proof.
  exact (proj1 (unread_view_after_bulk_mark (H := Sample.builtins) 77 Sample.alice
                  (Sample.request [] [("before", "200")]) Sample.db 200 Select_default
                  eq_refl) 1).
Defined.

(** ** Editing a feed *)

Lemma elem_of_feed_groups user fd db g :
  g ∈ feed_groups user fd db
  ↔ g ∈ groups db
    ∧ ∃ s, s ∈ subscriptions db ∧ Subscription_group s = Group_id g
           ∧ Subscription_user s = User_id user
           ∧ Subscription_feed s = Feed_id fd.
Proof.
  unfold feed_groups. rewrite list_elem_of_bind. split.
  - intros (s & Hin & Hs). apply list_elem_of_bind in Hin as (g' & Hin & Hg).
    apply list_elem_of_filter in Hg as [Hid Hg].
    destruct (_ && _) eqn:Hc; [|by apply elem_of_nil in Hin].
    apply list_elem_of_singleton in Hin. subst g'.
    apply andb_true_iff in Hc as [Hu Hf].
    apply bool_decide_eq_true in Hu, Hf. eauto 10.
  - intros [Hg (s & Hs & Hsg & Hu & Hf)]. exists s. split; [|done].
    apply list_elem_of_bind. exists g. split; [|by apply list_elem_of_filter].
    rewrite !bool_decide_eq_true_2 by done. left.
Qed.

Lemma NoDup_feed_groups user fd db :
  NoDup (Group_id <$> groups db) → unique_keys db →
  NoDup (feed_groups user fd db).
Proof.
  intros Hgk Huk. unfold feed_groups.
  apply NoDup_bind; [| |eapply NoDup_fmap_1, Huk].
  - intros s1 s2 g Hs1 Hs2 Hg1 Hg2.
    apply list_elem_of_bind in Hg1 as (g1 & Hin1 & Hg1).
    apply list_elem_of_bind in Hg2 as (g2 & Hin2 & Hg2).
    apply list_elem_of_filter in Hg1 as [Hid1 _].
    apply list_elem_of_filter in Hg2 as [Hid2 _].
    destruct (bool_decide (Subscription_user s1 = _) && _) eqn:Hc1;
      [|by apply elem_of_nil in Hin1].
    destruct (bool_decide (Subscription_user s2 = _) && _) eqn:Hc2;
      [|by apply elem_of_nil in Hin2].
    apply list_elem_of_singleton in Hin1, Hin2. subst g1 g2.
    apply andb_true_iff in Hc1 as [Hu1 Hf1]. apply andb_true_iff in Hc2 as [Hu2 Hf2].
    apply bool_decide_eq_true in Hu1, Hf1, Hu2, Hf2.
    eapply (NoDup_fmap_eq
              (λ s, (Subscription_user s, Subscription_group s, Subscription_feed s)));
      [apply Huk|done..|]. simpl. congruence.
  - intros s _. apply (NoDup_bind_tag (λ g, g)).
    + intros g g' Hg'. destruct (_ && _); [|by apply elem_of_nil in Hg'].
      by apply list_elem_of_singleton in Hg'.
    + intros g _. destruct (_ && _); [apply NoDup_singleton|apply NoDup_nil_2].
    + apply NoDup_filter. by eapply NoDup_fmap_1.
Qed.

(** X16. [GET /feeds/edit/<id>] for an existing feed returns that feed and,
    as [groups], exactly the groups in which the user holds a subscription to
    it; for a user with no such subscription the list is empty and there is
    no error.  With unique keys no group is listed twice.  The store is not
    written. *)
Theorem feed_edit_groups (user : User) (request : Request) (feed_id : Z) (db : DB) :
  (∃ f, f ∈ feeds db ∧ Feed_id f = feed_id) →
  ∃ f gs,
    feed (Some user) request feed_id db = (db, Ok (f, gs))
    ∧ f ∈ feeds db ∧ Feed_id f = feed_id
    ∧ (∀ g, g ∈ gs
            ↔ g ∈ groups db
              ∧ ∃ s, s ∈ subscriptions db ∧ Subscription_group s = Group_id g
                     ∧ Subscription_user s = User_id user
                     ∧ Subscription_feed s = feed_id)
    ∧ (NoDup (Group_id <$> groups db) → unique_keys db → NoDup gs).
Proof.
  intros Hex. destruct (Feed_get_found feed_id db Hex) as (f & Hget & Hf & Hid).
  exists f, (feed_groups user f db). split_and!; [|done|done| |].
  - unfold feed. run. by rewrite Hget.
  - intros g. rewrite elem_of_feed_groups. by rewrite Hid.
  - apply NoDup_feed_groups.
Qed.

Lemma feed_edit_groups_witness :
  ∃ f gs,
    feed (Some Sample.alice) (Sample.request [] []) 1 Sample.db = (Sample.db, Ok (f, gs))
    ∧ Feed_id f = 1 ∧ length gs = 2%nat.
Proof.
  destruct (feed_edit_groups Sample.alice (Sample.request [] []) 1 Sample.db)
    as (f & gs & Hrun & _ & Hid & _).
  - exists (Sample.feed 1 (Some 100)). split; [apply list_elem_of_here|reflexivity].
  - exists f, gs. split; [exact Hrun|]. split; [exact Hid|].
    revert Hrun. vm_compute. intros [= <- <-]. reflexivity.
Defined.

(** X17. [GET /feeds/edit/<id>] for a feed id that no row has writes
    nothing.  When the id is one the engine can bind (a signed 64-bit integer)
    the lookup raises [DoesNotExist] and the answer is [HTTPNotFound], as the
    entry handlers do for a missing entry; when it is not, binding it raises
    [OverflowError], which the handler does not catch. *)
Theorem feed_edit_unknown_id (user : User) (request : Request) (feed_id : Z) (db : DB) :
  (∀ f, f ∈ feeds db → Feed_id f ≠ feed_id) →
  feed (Some user) request feed_id db
  = (db, Raise (if decide (fits_int64 feed_id) then HTTPNotFound else OverflowError)).
Proof.
  intros Hno. unfold feed, Feed_get. run.
  rewrite (proj2 (filter_nil_iff (λ f, Feed_id f = feed_id) (feeds db)) Hno).
  destruct (decide (fits_int64 feed_id)) as [Hfit|Hbig].
  - by rewrite no_row_fits.
  - by rewrite no_row_overflow.
Qed.

Lemma feed_edit_unknown_id_witness :
  feed (Some Sample.alice) (Sample.request [] []) 9 Sample.db
  = (Sample.db, Raise HTTPNotFound).
Proof.
  apply (feed_edit_unknown_id Sample.alice (Sample.request [] []) 9 Sample.db).
  intros f Hf. unfold Sample.db in Hf; simpl in Hf.
  repeat (apply elem_of_cons in Hf as [->|Hf]); simpl; try discriminate.
  by apply elem_of_nil in Hf.
Defined.

(** ** The feed list *)

Lemma elem_of_feeds_joined db j :
  j ∈ feeds_joined db
  ↔ fj_feed j ∈ feeds db
    ∧ fj_icon j ∈ icons db ∧ Icon_id (fj_icon j) = Feed_icon (fj_feed j)
    ∧ fj_subscription j ∈ subscriptions db
    ∧ Subscription_feed (fj_subscription j) = Feed_id (fj_feed j).
Proof.
  unfold feeds_joined. split.
  - intros Hin.
    apply list_elem_of_bind in Hin as (f & Hin & Hf).
    apply list_elem_of_bind in Hin as (i & Hin & Hi).
    apply list_elem_of_bind in Hin as (s & Hin & Hs).
    apply list_elem_of_singleton in Hin. subst j. simpl.
    apply list_elem_of_filter in Hi as [? ?].
    apply list_elem_of_filter in Hs as [? ?]. done.
  - destruct j as [f i s]; simpl. intros (Hf & Hi & Hif & Hs & Hsf).
    apply list_elem_of_bind. exists f. split; [|done].
    apply list_elem_of_bind. exists i. split; [|by apply list_elem_of_filter].
    apply list_elem_of_bind. exists s. split; [|by apply list_elem_of_filter].
    left.
Qed.

Lemma FeedRow_feed_id_project sel j :
  FeedRow_feed_id (feed_project sel j) = Feed_id (fj_feed j).
Proof. by destruct sel. Qed.

Section feed_rows.
Context `{Collation}.


Lemma elem_of_feed_unpaged_rows db q x :
  x ∈ feed_unpaged_rows db q
  ↔ ∃ j, j ∈ feeds_joined db ∧ fq_where q db j ∧ x = feed_project (fq_select q) j.
Proof.
  unfold feed_unpaged_rows; simpl.
  assert (x ∈ feed_project (fq_select q) <$>
                (if fq_order_by_title q
                 then merge_sort Feed_title_asc
                        (filter (λ j, fq_where q db j) (feeds_joined db))
                 else filter (λ j, fq_where q db j) (feeds_joined db))
          ↔ ∃ j, j ∈ feeds_joined db ∧ fq_where q db j
                 ∧ x = feed_project (fq_select q) j) as Hbase.
  { rewrite list_elem_of_fmap. destruct (fq_order_by_title q).
    - setoid_rewrite (merge_sort_Permutation Feed_title_asc).
      setoid_rewrite list_elem_of_filter.
      split; [intros (j & -> & Hw & Hj)|intros (j & Hj & Hw & ->)]; eauto.
    - setoid_rewrite list_elem_of_filter.
      split; [intros (j & -> & Hw & Hj)|intros (j & Hj & Hw & ->)]; eauto. }
  destruct (fq_distinct q); [by rewrite elem_of_remove_dups|done].
Qed.

Lemma elem_of_feed_ids db q id :
  id ∈ FeedRow_feed_id <$> feed_unpaged_rows db q
  ↔ ∃ j, j ∈ feeds_joined db ∧ fq_where q db j ∧ Feed_id (fj_feed j) = id.
Proof.
  rewrite list_elem_of_fmap. setoid_rewrite elem_of_feed_unpaged_rows. split.
  - intros (x & -> & j & Hj & Hw & ->). rewrite FeedRow_feed_id_project. eauto.
  - intros (j & Hj & Hw & <-). exists (feed_project (fq_select q) j).
    rewrite FeedRow_feed_id_project. eauto.
Qed.



End feed_rows.



(** X19. Given the icon rows the feeds point to, the feeds query of a user
    shows exactly the feeds the user holds a subscription to. *)
Theorem get_feeds_contents `{Collation} (user : User) (sel : FeedSelect)
    (db : DB) (id : Z) :
  feed_icons_exist db →
  id ∈ FeedRow_feed_id <$> feed_rows db (get_feeds user sel)
  ↔ ∃ f s, f ∈ feeds db ∧ Feed_id f = id
           ∧ s ∈ subscriptions db ∧ Subscription_feed s = id
           ∧ Subscription_user s = User_id user.
Proof.
  intros Hfk.
  change (feed_rows db (get_feeds user sel))
    with (feed_unpaged_rows db (get_feeds user sel)).
  rewrite elem_of_feed_ids. simpl. split.
  - intros (j & Hj & Hw & Hid). apply bool_decide_unpack in Hw.
    apply elem_of_feeds_joined in Hj as (Hf & _ & _ & Hs & Hsf).
    exists (fj_feed j), (fj_subscription j). split_and!; congruence.
  - intros (f & s & Hf & Hid & Hs & Hsf & Hu).
    destruct (Hfk f Hf) as (i & Hi & Hif).
    exists {| fj_feed := f; fj_icon := i; fj_subscription := s |}.
    rewrite elem_of_feeds_joined. simpl. split_and!; try done; try congruence.
    by apply bool_decide_pack.
Qed.

Lemma get_feeds_contents_witness :
  1 ∈ FeedRow_feed_id <$>
        feed_rows (H := Sample2.collation) Sample.db
          (get_feeds Sample.bob FeedSelect_default)
  ↔ ∃ f s, f ∈ feeds Sample.db ∧ Feed_id f = 1
           ∧ s ∈ subscriptions Sample.db ∧ Subscription_feed s = 1
           ∧ Subscription_user s = User_id Sample.bob.
Proof.
  exact (get_feeds_contents (H := Sample2.collation) Sample.bob FeedSelect_default
           Sample.db 1 Sample_feed_icons_exist).
Defined.

(** X20. The groups of a user, as the navigation lists them, are exactly the
    groups in which the user holds a subscription, each once. *)
Theorem get_groups_contents `{Collation} (user : User) (db : DB) :
  NoDup (get_groups user db)
  ∧ ∀ g, g ∈ get_groups user db
         ↔ g ∈ groups db
           ∧ ∃ s, s ∈ subscriptions db ∧ Subscription_group s = Group_id g
                  ∧ Subscription_user s = User_id user.
Proof.
  unfold get_groups. split; [apply NoDup_remove_dups|].
  intros g. rewrite elem_of_remove_dups, (merge_sort_Permutation Group_title_asc).
  rewrite list_elem_of_bind. split.
  - intros (g' & Hin & Hg). apply list_elem_of_bind in Hin as (s & Hin & Hs).
    apply list_elem_of_filter in Hs as [Hsg Hs].
    destruct (bool_decide _) eqn:Hu; [|by apply elem_of_nil in Hin].
    apply list_elem_of_singleton in Hin. subst g'.
    apply bool_decide_eq_true in Hu. eauto.
  - intros [Hg (s & Hs & Hsg & Hu)]. exists g. split; [|done].
    apply list_elem_of_bind. exists s. split; [|by apply list_elem_of_filter].
    rewrite bool_decide_eq_true_2 by done. left.
Qed.

(** ** Statistics *)

Lemma Max_last_checked_on_None db :
  Max_last_checked_on db = None ↔ ∀ f, f ∈ feeds db → Feed_last_checked_on f = None.
Proof.
  unfold Max_last_checked_on. induction (feeds db) as [|f fs IH]; simpl.
  - split; [|done]. intros _ f Hf. by apply elem_of_nil in Hf.
  - destruct (Feed_last_checked_on f) as [t|] eqn:Ht.
    + split; [done|]. intros Hall. specialize (Hall f (list_elem_of_here _ _)).
      congruence.
    + rewrite IH. split.
      * intros Hall g Hg. apply elem_of_cons in Hg as [->|Hg]; auto.
      * intros Hall g Hg. apply Hall. by right.
Qed.

Lemma Max_last_checked_on_Some db T :
  Max_last_checked_on db = Some T →
  (∃ f, f ∈ feeds db ∧ Feed_last_checked_on f = Some T)
  ∧ ∀ f T', f ∈ feeds db → Feed_last_checked_on f = Some T' → T' ≤ T.
Proof.
  unfold Max_last_checked_on. revert T.
  induction (feeds db) as [|f fs IH]; simpl; intros T; [done|].
  destruct (Feed_last_checked_on f) as [t|] eqn:Ht.
  - destruct (foldr _ None fs) as [m|] eqn:Hm.
    + intros [= <-]. destruct (IH m eq_refl) as [(g & Hg & HgT) Hmax]. split.
      * destruct (Z.max_spec t m) as [[_ ->]|[_ ->]].
        -- exists g. split; [by right|done].
        -- exists f. split; [left|done].
      * intros h T' Hh HT'. apply elem_of_cons in Hh as [->|Hh].
        -- rewrite Ht in HT'. injection HT' as <-. lia.
        -- specialize (Hmax h T' Hh HT'). lia.
    + intros [= <-]. split; [exists f; split; [left|done]|].
      intros h T' Hh HT'. apply elem_of_cons in Hh as [->|Hh].
      * rewrite Ht in HT'. injection HT' as <-. lia.
      * assert (Feed_last_checked_on h = None) as Hnone.
        { clear IH. revert Hm Hh. induction fs as [|a fs IH']; simpl.
          - intros _ Hh. by apply elem_of_nil in Hh.
          - destruct (Feed_last_checked_on a) eqn:Ha; [done|].
            intros Hm Hh. apply elem_of_cons in Hh as [->|Hh]; auto. }
        congruence.
  - intros Hm. destruct (IH T Hm) as [(g & Hg & HgT) Hmax]. split.
    + exists g. split; [by right|done].
    + intros h T' Hh HT'. apply elem_of_cons in Hh as [->|Hh]; [congruence|].
      by apply (Hmax h).
Qed.

(** X21. The [last_checked_on] of the statistics is the text [Never] when
    no feed has ever been checked; otherwise it is the formatted check time
    of some feed, and no feed was checked later than that. *)
Theorem get_stats_last_checked `{Formatting} (now : datetime) (db : DB) :
  ((∀ f, f ∈ feeds db → Feed_last_checked_on f = None)
   ∧ stats_last_checked_on (get_stats now db) = "Never")
  ∨ (∃ T, stats_last_checked_on (get_stats now db) = format_datetime T
          ∧ (∃ f, f ∈ feeds db ∧ Feed_last_checked_on f = Some T)
          ∧ ∀ f T', f ∈ feeds db → Feed_last_checked_on f = Some T' → T' ≤ T).
Proof.
  unfold get_stats; simpl.
  destruct (Max_last_checked_on db) as [T|] eqn:Hmax.
  - right. exists T. split; [done|]. by apply Max_last_checked_on_Some.
  - left. split; [|done]. by apply Max_last_checked_on_None.
Qed.

Lemma length_filter_all {A} (P : A → Prop) `{!∀ x, Decision (P x)} (l : list A) :
  length (filter P l) = length l ↔ ∀ x, x ∈ l → P x.
Proof.
  induction l as [|x l IH].
  - split; [|done]. intros _ y Hy. by apply elem_of_nil in Hy.
  - rewrite filter_cons. destruct (decide (P x)) as [HP|HP]; simpl.
    + split.
      * intros Hlen y Hy. apply elem_of_cons in Hy as [->|Hy]; [done|].
        apply IH; [lia|done].
      * intros Hall. f_equal. apply IH. intros y Hy. apply Hall. by right.
    + split.
      * intros Hlen. pose proof (length_filter P l). lia.
      * intros Hall. exfalso. apply HP, Hall. left.
Qed.

Lemma elem_of_all_Read_entries db id :
  id ∈ Read_entry <$> read db ↔ ∃ u, is_read db u id.
Proof.
  unfold is_read. rewrite list_elem_of_fmap. split.
  - intros (r & -> & Hr). exists (Read_user r), r. done.
  - intros (u & r & Hr & _ & He). exists r. done.
Qed.

(** X22. In the statistics the unread count never exceeds the entry count
    and the count of enabled feeds never exceeds the feed count.  The unread
    count is global: it equals the entry count exactly when no entry has
    been read by any user, and it is zero exactly when every entry has been
    read by some user. *)
Theorem get_stats_counts `{Formatting} (now : datetime) (db : DB) :
  let st := get_stats now db in
  (stats_unread_entry_count st ≤ stats_entry_count st)%nat
  ∧ (stats_active_feed_count st ≤ stats_feed_count st)%nat
  ∧ (stats_unread_entry_count st = stats_entry_count st
     ↔ ∀ e u, e ∈ entries db → ¬ is_read db u (Entry_id e))
  ∧ (stats_unread_entry_count st = 0%nat
     ↔ ∀ e, e ∈ entries db → ∃ u, is_read db u (Entry_id e)).
Proof.
  unfold get_stats; simpl. split_and!.
  - apply length_filter.
  - apply length_filter.
  - rewrite length_filter_all. split.
    + intros Hall e u He Hr. apply (Hall e He), elem_of_all_Read_entries. eauto.
    + intros Hall e He Hin. apply elem_of_all_Read_entries in Hin as [u Hr].
      by apply (Hall e u).
  - rewrite length_zero_iff_nil, filter_nil_iff. split.
    + intros Hall e He. apply elem_of_all_Read_entries.
      destruct (decide (Entry_id e ∈ Read_entry <$> read db)) as [?|Hno]; [done|].
      by destruct (Hall e He).
    + intros Hall e He Hno. apply Hno, elem_of_all_Read_entries. by apply Hall.
Qed.

Lemma filter_ext_in {A} (P Q : A → Prop) `{!∀ x, Decision (P x)}
    `{!∀ x, Decision (Q x)} (l : list A) :
  (∀ x, x ∈ l → P x ↔ Q x) → filter P l = filter Q l.
Proof.
  intros Hext. induction l as [|a l IH]; [done|].
  rewrite !filter_cons.
  rewrite IH by (intros x Hx; apply Hext; by right).
  destruct (decide (P a)) as [HP|HP]; destruct (decide (Q a)) as [HQ|HQ]; try done.
  - exfalso. apply HQ, (Hext a); [left|done].
  - exfalso. apply HP, (Hext a); [left|done].
Qed.

Lemma length_filter_drop_one {A B} `{EqDecision B} (f : A → B) (l : list B)
    (x : B) (es : list A) (e0 : A) :
  NoDup (f <$> es) → e0 ∈ es → f e0 = x → x ∉ l →
  (length (filter (λ e, f e ∉ l ++ [x]) es) + 1
   = length (filter (λ e, f e ∉ l) es))%nat.
Proof.
  intros Hnd Hin Hfx Hxl. induction es as [|a es IH]; [by apply elem_of_nil in Hin|].
  rewrite fmap_cons in Hnd. apply NoDup_cons in Hnd as [Ha Hnd].
  apply elem_of_cons in Hin as [<-|Hin].
  - rewrite (filter_cons_False _ e0)
      by (rewrite Hfx, elem_of_app, list_elem_of_singleton; tauto).
    rewrite (filter_cons_True _ e0) by (by rewrite Hfx). simpl.
    rewrite (filter_ext_in (λ e, f e ∉ l ++ [x]) (λ e, f e ∉ l) es); [lia|].
    intros e He. rewrite elem_of_app, list_elem_of_singleton.
    split; [tauto|]. intros Hl [?|Hx]; [done|].
    apply Ha. rewrite Hfx, <- Hx. by apply list_elem_of_fmap_2.
  - assert (f a ≠ x) as Hne.
    { intros Hax. apply Ha. rewrite Hax, <- Hfx. by apply list_elem_of_fmap_2. }
    rewrite !(filter_cons _ a).
    destruct (decide (f a ∉ l)) as [Hal|Hal].
    + rewrite decide_True by (rewrite elem_of_app, list_elem_of_singleton; tauto).
      simpl. rewrite <- IH by done. lia.
    + rewrite decide_False by (rewrite elem_of_app; tauto).
      by apply IH.
Qed.

(** X23. Reading an entry that nobody had read lowers the global unread
    count of the statistics by exactly one (the entry keys being unique and
    the entry being in the store); the other counts stay. *)
Theorem get_stats_after_first_read `{Formatting} (now now' : datetime)
    (user : User) (entry : Entry) (db : DB) :
  NoDup (Entry_id <$> entries db) → entry ∈ entries db →
  (∀ u, ¬ is_read db u (Entry_id entry)) →
  let st := get_stats now db in
  let st' := get_stats now' (_mark_entry now user entry "read" db).1 in
  (stats_unread_entry_count st' + 1 = stats_unread_entry_count st)%nat
  ∧ stats_entry_count st' = stats_entry_count st
  ∧ stats_feed_count st' = stats_feed_count st
  ∧ stats_active_feed_count st' = stats_active_feed_count st
  ∧ stats_last_checked_on st' = stats_last_checked_on st.
Proof.
  intros Hnd Hin Hnone. rewrite mark_read_absent by apply Hnone.
  unfold get_stats; simpl. split_and!; try done.
  rewrite fmap_app; simpl.
  apply (length_filter_drop_one Entry_id _ _ _ entry); [done..|].
  intros Hr. apply elem_of_all_Read_entries in Hr as [u Hr]. by apply (Hnone u).
Qed.

Lemma get_stats_after_first_read_witness :
  (stats_unread_entry_count
     (get_stats (H := Sample2.formatting) 61
        (_mark_entry 60 Sample.bob (Sample.item 4 3 40) "read" Sample.db).1) + 1
   = stats_unread_entry_count (get_stats (H := Sample2.formatting) 60 Sample.db))%nat.
Proof.
  apply (get_stats_after_first_read (H := Sample2.formatting) 60 61 Sample.bob
           (Sample.item 4 3 40) Sample.db).
  - apply (bool_decide_unpack _). vm_compute. exact I.
  - unfold Sample.db; simpl.
    repeat first [apply list_elem_of_here|apply list_elem_of_further].
  - intros u (r & Hr & _ & He). unfold Sample.db in Hr; simpl in Hr.
    repeat (apply elem_of_cons in Hr as [->|Hr]); simpl in *; try discriminate.
    by apply elem_of_nil in Hr.
Defined.

(** ** Alert messages *)

Lemma split_space_None s :
  split_space s = None ↔ Ascii.Space ∉ String.list_ascii_of_string s.
Proof.
  induction s as [|c s IH]; simpl.
  - split; [|done]. intros _ Hin. by apply elem_of_nil in Hin.
  - destruct (decide (c = Ascii.Space)) as [->|Hc].
    + split; [done|]. intros Hno. exfalso. apply Hno. left.
    + destruct (split_space s) as [[a b]|].
      * split; [done|]. intros Hno. exfalso.
        assert (Ascii.Space ∉ String.list_ascii_of_string s) as Hs
          by (intros Hs; apply Hno; by right).
        by apply IH in Hs.
      * split; [|done]. intros _ Hin. apply elem_of_cons in Hin as [?|Hin]; [done|].
        by apply (proj1 IH).
Qed.

Lemma split_space_append klass text :
  Ascii.Space ∉ String.list_ascii_of_string klass →
  split_space (String.append klass (String Ascii.Space text)) = Some (klass, text).
Proof.
  induction klass as [|c klass IH]; simpl; intros Hno.
  - done.
  - rewrite decide_False by (intros ->; apply Hno; left).
    rewrite IH; [done|]. intros Hin. apply Hno. by right.
Qed.

(** X24. A message made of a class word without a space, one space, and a
    text is rendered as the alert markup with the class word put through
    [lower] and the text as it is: the split at the first space takes the
    message apart again as it was put together.  With [lower] lower-casing
    the letters A to Z, [ERROR Unable to log in.] is rendered with the class
    [alert--error]. *)
Theorem render_message_markup `{Text} (klass text : string) :
  Ascii.Space ∉ String.list_ascii_of_string klass →
  render_message (String.append klass (String Ascii.Space text))
  = Markup (String.append "<div class="
           (String.append dquote
           (String.append "alert alert--"
           (String.append (lower klass)
           (String.append dquote
           (String.append ">"
           (String.append text "</div>"))))))).
Proof.
  intros Hno. unfold render_message.
  rewrite decide_False by (by destruct klass).
  by rewrite split_space_append.
Qed.

Lemma render_message_markup_witness :
  render_message (H := Sample2.text)
    (String.append "ERROR" (String Ascii.Space "Unable to log in."))
  = Markup (String.append "<div class="
           (String.append dquote
           (String.append "alert alert--"
           (String.append "error"
           (String.append dquote
           (String.append ">"
           (String.append "Unable to log in." "</div>"))))))).
Proof.
  apply (render_message_markup (H := Sample2.text) "ERROR" "Unable to log in.").
  apply (bool_decide_unpack _). vm_compute. exact I.
Defined.

(** X25. A message that is not empty and has no space is not rendered at
    all: [render_message] ends in the [UnboundLocalError] of the name [text],
    read in the handler of the failed unpacking before it was ever bound. *)
Theorem render_message_no_space `{Text} (message : string) :
  message ≠ EmptyString →
  Ascii.Space ∉ String.list_ascii_of_string message →
  render_message message = UnboundLocalError "text".
Proof.
  intros Hne Hno. unfold render_message.
  rewrite decide_False by done.
  by rewrite (proj2 (split_space_None message) Hno).
Qed.

Lemma render_message_no_space_witness :
  render_message (H := Sample2.text) "SUCCESS" = UnboundLocalError "text".
Proof.
  apply (render_message_no_space (H := Sample2.text) "SUCCESS").
  - discriminate.
  - apply (bool_decide_unpack _). vm_compute. exact I.
Defined.

(** ** Setting up the store *)

Lemma Group_create_present title db :
  (∃ g, g ∈ groups db ∧ Group_title g = title) →
  Group_create title db = (db, Raise IntegrityError).
Proof.
  intros (g & Hg & Ht). unfold Group_create.
  destruct (filter _ (groups db)) eqn:E; [|done].
  exfalso. by eapply (proj1 (filter_nil_iff _ _) E g).
Qed.

Lemma Group_create_absent title db :
  (∀ g, g ∈ groups db → Group_title g ≠ title) →
  Group_create title db
  = (set_groups (groups db ++ [ {| Group_id := next_id (Group_id <$> groups db);
                                   Group_title := title |} ]) db,
     Ok {| Group_id := next_id (Group_id <$> groups db); Group_title := title |}).
Proof.
  intros Hno. unfold Group_create.
  by rewrite (proj2 (filter_nil_iff (λ g, Group_title g = title) (groups db)) Hno).
Qed.

Lemma default_group_dec db :
  {∃ g, g ∈ groups db ∧ Group_title g = DEFAULT_GROUP}
  + {∀ g, g ∈ groups db → Group_title g ≠ DEFAULT_GROUP}.
Proof.
  destruct (filter (λ g, Group_title g = DEFAULT_GROUP) (groups db)) as [|g k] eqn:E.
  - right. exact (proj1 (filter_nil_iff _ _) E).
  - left. exists g. apply filter_head_elem in E as [? ?]. done.
Defined.

Lemma next_id_fresh (ids : list Z) : next_id ids ∉ ids.
Proof.
  assert (∀ x, x ∈ ids → x ≤ foldr Z.max 0 ids) as Hmax.
  { induction ids as [|a ids IH]; intros x Hx; [by apply elem_of_nil in Hx|].
    simpl. apply elem_of_cons in Hx as [->|Hx]; [lia|].
    specialize (IH x Hx). lia. }
  intros Hin. specialize (Hmax _ Hin). unfold next_id in Hmax. lia.
Qed.

(** X26. [setup] is idempotent and makes sure the default group is there.
    It returns normally; on a store that has a group titled [Default] it
    changes nothing (also when no icon is there); otherwise it appends that
    group and one icon with the default favicon, both under fresh keys, the
    icon under key 1 when the icon table was empty.  Run again on its own
    result it changes nothing.  Unique keys and titles of groups and unique
    keys of icons stay unique. *)
Theorem setup_idempotent (favicon : string) (db : DB) :
  ∃ db1,
    setup favicon db = (db1, Ok ())
    ∧ setup favicon db1 = (db1, Ok ())
    ∧ (∃ g, g ∈ groups db1 ∧ Group_title g = DEFAULT_GROUP)
    ∧ ((∃ g, g ∈ groups db ∧ Group_title g = DEFAULT_GROUP) → db1 = db)
    ∧ ((∀ g, g ∈ groups db → Group_title g ≠ DEFAULT_GROUP) →
       ∃ g i, db1 = set_icons (icons db ++ [i]) (set_groups (groups db ++ [g]) db)
              ∧ Group_title g = DEFAULT_GROUP ∧ Icon_data i = favicon
              ∧ (Group_id g ∉ Group_id <$> groups db)
              ∧ (Icon_id i ∉ Icon_id <$> icons db)
              ∧ (icons db = [] → Icon_id i = 1))
    ∧ (NoDup (Group_title <$> groups db) → NoDup (Group_title <$> groups db1))
    ∧ (NoDup (Group_id <$> groups db) → NoDup (Group_id <$> groups db1))
    ∧ (NoDup (Icon_id <$> icons db) → NoDup (Icon_id <$> icons db1)).
Proof.
  assert (∀ d, (∃ g, g ∈ groups d ∧ Group_title g = DEFAULT_GROUP) →
               setup favicon d = (d, Ok ())) as Hskip.
  { intros d Hex. unfold setup, transaction. run.
    by rewrite (Group_create_present DEFAULT_GROUP d Hex). }
  destruct (default_group_dec db) as [Hex|Hno].
  - exists db. rewrite Hskip by done. split_and!; try done.
    intros Hno. destruct Hex as (g & Hg & Ht). by destruct (Hno g Hg).
  - set (g := {| Group_id := next_id (Group_id <$> groups db);
                 Group_title := DEFAULT_GROUP |}).
    set (i := {| Icon_id := next_id (Icon_id <$> icons db); Icon_data := favicon |}).
    exists (set_icons (icons db ++ [i]) (set_groups (groups db ++ [g]) db)).
    assert (∃ g', g' ∈ groups (set_icons (icons db ++ [i])
                                 (set_groups (groups db ++ [g]) db))
                  ∧ Group_title g' = DEFAULT_GROUP) as Hnow.
    { exists g. split; [|done]. simpl. apply elem_of_app. right. left. }
    split_and!.
    + unfold setup, transaction, Icon_create. run.
      by rewrite (Group_create_absent DEFAULT_GROUP db Hno).
    + by apply Hskip.
    + done.
    + intros (g' & Hg' & Ht). by destruct (Hno g' Hg').
    + intros _. exists g, i. split_and!; try done.
      * apply next_id_fresh.
      * apply next_id_fresh.
      * intros Hnil. subst i. simpl. by rewrite Hnil.
    + intros Hnd. simpl. rewrite fmap_app. apply NoDup_app.
      split_and!; [done| |apply NoDup_singleton].
      intros t Ht Ht'. simpl in Ht'. apply list_elem_of_singleton in Ht'. subst t.
      apply list_elem_of_fmap in Ht as (g' & Heq & Hg'). by apply (Hno g' Hg').
    + intros Hnd. simpl. rewrite fmap_app. apply NoDup_app.
      split_and!; [done| |apply NoDup_singleton].
      intros k Hk Hk'. simpl in Hk'. apply list_elem_of_singleton in Hk'. subst k.
      by apply (next_id_fresh (Group_id <$> groups db)).
    + intros Hnd. simpl. rewrite fmap_app. apply NoDup_app.
      split_and!; [done| |apply NoDup_singleton].
      intros k Hk Hk'. simpl in Hk'. apply list_elem_of_singleton in Hk'. subst k.
      by apply (next_id_fresh (Icon_id <$> icons db)).
Qed.

(** ** Credentials *)

(** X27. With user names unique, a user of the table is validated under
    their own name exactly with their own password and only while enabled;
    and whoever is validated is an enabled user of the table with that name
    and password. *)
Theorem validate_credentials_account (users : list User) (u : User)
    (password : string) :
  NoDup (User_username <$> users) → u ∈ users →
  (validate_credentials users (User_username u) password = Some u
   ↔ password = User_password u ∧ User_is_enabled u = true)
  ∧ (∀ u', validate_credentials users (User_username u) password = Some u' →
           u' = u ∧ password = User_password u ∧ User_is_enabled u = true).
Proof.
  intros Hnd Hu. unfold validate_credentials.
  assert (∀ pw u', head (filter (λ v, User_username v = User_username u
                                      ∧ User_password v = pw
                                      ∧ User_is_enabled v = true) users) = Some u' →
                   u' = u ∧ pw = User_password u ∧ User_is_enabled u = true) as Hsome.
  { intros pw u' Hh. apply head_Some in Hh as (k & Hk).
    apply filter_head_elem in Hk as [(Hname & Hpw & Hen) Hin].
    assert (u' = u) as -> by by eapply (NoDup_fmap_eq User_username). done. }
  split; [|apply Hsome]. split.
  - intros Hh. by destruct (Hsome _ u Hh) as (_ & ? & ?).
  - intros [-> Hen].
    destruct (filter _ users) as [|u' k] eqn:E.
    + exfalso. by eapply (proj1 (filter_nil_iff _ _) E u).
    + simpl. f_equal. apply (Hsome (User_password u)). by rewrite E.
Qed.

Lemma validate_credentials_account_witness :
  validate_credentials Sample2.users "alice" "secret" = Some Sample.alice
  ↔ "secret" = User_password Sample.alice ∧ User_is_enabled Sample.alice = true.
Proof.
  apply (validate_credentials_account Sample2.users Sample.alice "secret").
  - apply (bool_decide_unpack _). vm_compute. exact I.
  - apply list_elem_of_here.
Defined.
